(** * LINE_DB_viewer: timestamp conversion and WAL-aware table reading

    A shallow embedding of [src/utils/time_utils.py] and
    [src/utils/database_utils.py], together with the part of the Python
    runtime (int, str, float, datetime, pytz, sqlite3) that those two
    modules call, and the properties of the two modules stated in the
    specification.  The functions of [database_utils.py] that read
    without the WAL file, and the row tags that [on_table_select] of
    [src/gui/gui_main.py] derives from the keys, follow with properties
    of their own.  [connect_database] depends on the file system and the
    permissions of the host and is not modelled: a cursor is given.

    Conventions.
    - A Python [int] is a [Z]; a Python [str] is a [string] holding its
      UTF-8 bytes; a Python [float] is a binary64 number ([spec_float]
      with precision 53 and maximal exponent 1024).
    - A Python exception is a value of [exn]; code that can raise returns
      a [result].  [try]/[except] is a [match] on the result.
    - Library behaviour that depends on the platform follows CPython 3.11
      on Linux/glibc with a 64-bit [time_t], and pytz with the tz
      database of 2018 or later.  The optional limit of CPython on the
      number of digits of [str(int)] is not modelled: [str] of an [int]
      always succeeds.
    - Values of SQLite type REAL are left out of [pyval].
    - [print] appends a line to the standard output kept in the state.
    - What SQLite makes of the two [WHERE] clauses of
      [database_utils.py] on a table that exists is left to the engine:
      the functions that send them take its answer as a parameter. *)

From Stdlib Require Import ZArith List String Ascii Bool Lia.
From Stdlib Require Import DecimalString DecimalPos DecimalZ SpecFloat.
From stdpp Require Import base decidable countable gmap strings list sorting.

Local Open Scope string_scope.
Local Open Scope list_scope.
Local Open Scope Z_scope.

(** ** Python runtime: exceptions and results *)

Module Py.

(** The exception classes that the modelled code can meet.  All of them
    derive from [Exception]. *)
Inductive exn : Type :=
  | ValueError (msg : string)
  | TypeError (msg : string)
  | IndexError (msg : string)
  | ZeroDivisionError (msg : string)
  | OverflowError (msg : string)
  | OSError (msg : string)
  | OperationalError (msg : string)   (* sqlite3.OperationalError *)
  | DatabaseError (msg : string).     (* sqlite3.DatabaseError *)

(** [str(e)] *)
Definition exn_str (e : exn) : string :=
  match e with
  | ValueError m | TypeError m | IndexError m | ZeroDivisionError m
  | OverflowError m | OSError m | OperationalError m | DatabaseError m => m
  end.

Inductive result (A : Type) : Type :=
  | Return (a : A)
  | Raise (e : exn).
Arguments Return {A} a.
Arguments Raise {A} e.

(** Sequencing: the first exception raised ends the computation. *)
#[export] Instance result_ret : MRet result := fun A a => Return a.
#[export] Instance result_bind : MBind result := fun A B k m =>
  match m with
  | Return a => k a
  | Raise e => Raise e
  end.
#[export] Instance result_fmap : FMap result := fun A B f m =>
  match m with
  | Return a => Return (f a)
  | Raise e => Raise e
  end.

(** A list comprehension [[elt(x) for x in l if cond(x)]]: for every
    element the condition is evaluated first, and the element expression
    only where the condition holds. *)
Fixpoint comprehension {A B} (cond : A -> result bool) (elt : A -> result B)
  (l : list A) : result (list B) :=
  match l with
  | [] => Return []
  | x :: l' =>
      c ← cond x;
      if (c : bool)
      then y ← elt x; ys ← comprehension cond elt l'; mret (y :: ys)
      else comprehension cond elt l'
  end.

Definition always {A} (x : A) : result bool := Return true.

(** ** Values *)

(** The Python values that [sqlite3] hands out for a cell (except
    [float]) and that the viewer passes to [convert_timestamp]. *)
Inductive pyval : Type :=
  | PyNone
  | PyInt (n : Z)
  | PyStr (s : string)
  | PyBytes (b : string).

(** [str(n)] for an [int]: decimal digits, [-] in front of a negative. *)
Definition str_int (n : Z) : string := NilZero.string_of_int (Z.to_int n).

Definition hex_digit (n : N) : ascii :=
  ascii_of_N (if (n <? 10)%N then 48 + n else 87 + n)%N.

(** One byte inside [repr] of a [bytes] object delimited by [quote]. *)
Definition bytes_repr_byte (quote : ascii) (c : ascii) : string :=
  let n := N_of_ascii c in
  if Ascii.eqb c quote then String "\" (String c "")
  else if Ascii.eqb c "\" then "\\"
  else if (n =? 9)%N then "\t"
  else if (n =? 10)%N then "\n"
  else if (n =? 13)%N then "\r"
  else if ((n <? 32) || (127 <=? n))%N
       then String "\" (String "x" (String (hex_digit (n / 16))
                                        (String (hex_digit (n mod 16)) "")))
  else String c "".

Fixpoint str_concat_map (f : ascii -> string) (s : string) : string :=
  match s with
  | EmptyString => EmptyString
  | String c s' => f c +:+ str_concat_map f s'
  end.

Fixpoint str_contains_char (c : ascii) (s : string) : bool :=
  match s with
  | EmptyString => false
  | String d s' => Ascii.eqb c d || str_contains_char c s'
  end.

(** [repr(b)] for [bytes]: single quotes unless the value holds a single
    quote and no double quote. *)
Definition bytes_repr (b : string) : string :=
  let squote := ascii_of_N 39 in
  let dquote := ascii_of_N 34 in
  let quote :=
    if str_contains_char squote b && negb (str_contains_char dquote b)
    then dquote else squote in
  String "b" (String quote (str_concat_map (bytes_repr_byte quote) b
                              +:+ String quote "")).

(** [str(value)] *)
Definition str (v : pyval) : string :=
  match v with
  | PyNone => "None"
  | PyInt n => str_int n
  | PyStr s => s
  | PyBytes b => bytes_repr b
  end.

(** [s.replace(pat, '')]: every non-overlapping occurrence of [pat],
    scanning from the left, is dropped.  [skip] counts the characters of
    the occurrence being dropped. *)
Fixpoint str_remove_go (pat : string) (skip : nat) (s : string) : string :=
  match s with
  | EmptyString => ""
  | String c s' =>
      match skip with
      | S k => str_remove_go pat k s'
      | O =>
          match pat with
          | EmptyString => String c (str_remove_go pat 0 s')
          | String _ _ =>
              if String.prefix pat s
              then str_remove_go pat (String.length pat - 1)%nat s'
              else String c (str_remove_go pat 0 s')
          end
      end
  end.

Definition str_remove (pat s : string) : string := str_remove_go pat 0 s.

(** The integer that a canonical decimal string denotes. *)
Definition decimal_value (s : string) : option Z :=
  Z.of_int <$> NilZero.int_of_string s.

(** The builtin [int] on a [str] of ASCII characters: blanks around the
    text are dropped, a sign may come first, and the digits may be
    separated by single underscores.  [None] stands for [ValueError]. *)
Definition is_blank (c : ascii) : bool :=
  let n := N_of_ascii c in
  ((n =? 32) || ((9 <=? n) && (n <=? 13)) || ((28 <=? n) && (n <=? 31)))%N.

Fixpoint lstrip (s : string) : string :=
  match s with
  | EmptyString => EmptyString
  | String c s' => if is_blank c then lstrip s' else s
  end.

Fixpoint rstrip (s : string) : string :=
  match s with
  | EmptyString => EmptyString
  | String c s' =>
      match rstrip s' with
      | EmptyString => if is_blank c then EmptyString else String c EmptyString
      | r => String c r
      end
  end.

Definition digit_value (c : ascii) : option Z :=
  let n := N_of_ascii c in
  if ((48 <=? n) && (n <=? 57))%N then Some (Z.of_N n - 48) else None.

Fixpoint int_digits (acc : Z) (after_digit : bool) (s : string) : option Z :=
  match s with
  | EmptyString => if after_digit then Some acc else None
  | String c s' =>
      match digit_value c with
      | Some d => int_digits (10 * acc + d) true s'
      | None =>
          if Ascii.eqb c "_" && after_digit then int_digits acc false s'
          else None
      end
  end.

Definition int_of_ascii_str (s : string) : option Z :=
  match lstrip (rstrip s) with
  | String "-" s' => Z.opp <$> int_digits 0 false s'
  | String "+" s' => int_digits 0 false s'
  | s' => int_digits 0 false s'
  end.

(** Truth value of an object, as [if x:] and [not x] take it. *)
Definition truthy (v : pyval) : bool :=
  match v with
  | PyNone => false
  | PyInt n => negb (n =? 0)
  | PyStr s => negb (String.eqb s "")
  | PyBytes b => negb (String.eqb b "")
  end.

#[export] Instance pyval_eq_dec : EqDecision pyval.
Proof. solve_decision. Defined.

Definition pyval_encode (v : pyval) : () + Z + string + string :=
  match v with
  | PyNone => inl (inl (inl ()))
  | PyInt n => inl (inl (inr n))
  | PyStr s => inl (inr s)
  | PyBytes b => inr b
  end.

Definition pyval_decode (x : () + Z + string + string) : pyval :=
  match x with
  | inl (inl (inl _)) => PyNone
  | inl (inl (inr n)) => PyInt n
  | inl (inr s) => PyStr s
  | inr b => PyBytes b
  end.

#[export] Instance pyval_countable : Countable pyval.
Proof.
  refine (inj_countable' pyval_encode pyval_decode _).
  intros []; reflexivity.
Defined.

(** [t[i]] on a tuple. *)
Definition tuple_get (t : list pyval) (i : nat) : result pyval :=
  match t !! i with
  | Some v => Return v
  | None => Raise (IndexError "tuple index out of range")
  end.

(** [l.index(x)]: the position of the first element equal to [x]. *)
Fixpoint list_index (l : list pyval) (x : pyval) : result nat :=
  match l with
  | [] => Raise (ValueError (str x +:+ " is not in list"))
  | y :: l' =>
      if decide (y = x) then Return O
      else i ← list_index l' x; mret (S i)
  end.

End Py.

(** ** Python runtime: binary64 floats *)

Module PyFloat.
Import Py.

Definition float : Type := spec_float.

Definition prec : Z := 53.
Definition emax : Z := 1024.

(** The binary64 number nearest to [m * 2^e], ties to even. *)
Definition round_to_float (m e : Z) : float :=
  binary_normalize prec emax m e false.

(** [a / b] on two [int]s: the exact quotient, rounded once.  The
    quotient is first computed to at least 56 significant bits, the last
    of which is a sticky bit for the remainder. *)
Definition int_truediv (a b : Z) : result float :=
  if b =? 0 then Raise (ZeroDivisionError "division by zero")
  else
    let neg := xorb (a <? 0) (b <? 0) in
    let a' := Z.abs a in
    let b' := Z.abs b in
    if a' =? 0 then Return (S754_zero neg)
    else
      let k := Z.max 0 (Z.log2 b' - Z.log2 a' + 56) in
      let q := (a' * 2 ^ k) / b' in
      let sticky := if (a' * 2 ^ k) mod b' =? 0 then 0 else 1 in
      match round_to_float (cond_Zopp neg (2 * q + sticky)) (- k - 1) with
      | S754_finite s m e => Return (S754_finite s m e)
      | S754_zero s => Return (S754_zero s)
      | _ => Raise (OverflowError
                      "integer division result too large for a float")
      end.

(** A finite float as [m * 2^e] with a signed [m]. *)
Definition to_dyadic (x : float) : option (Z * Z) :=
  match x with
  | S754_zero _ => Some (0, 0)
  | S754_finite s m e => Some (cond_Zopp s (Zpos m), e)
  | _ => None
  end.

(** C [modf] on [m * 2^e]: the integral part, and the numerator of the
    fractional part over the same [2^e]; both carry the sign of the
    argument. *)
Definition dyadic_modf (m e : Z) : Z * Z :=
  if 0 <=? e then (m * 2 ^ e, 0)
  else (Z.quot m (2 ^ (- e)), Z.rem m (2 ^ (- e))).

(** The integer nearest to [m * 2^e], ties to the even one. *)
Definition dyadic_round_half_even (m e : Z) : Z :=
  if 0 <=? e then m * 2 ^ e
  else
    let d := 2 ^ (- e) in
    let q := m / d in
    let r := m mod d in
    match (2 * r) ?= d with
    | Lt => q
    | Gt => q + 1
    | Eq => if Z.even q then q else q + 1
    end.

(** A float number of seconds as a whole number of microseconds, the way
    both [datetime.fromtimestamp] and [timedelta(seconds=...)] do it:
    [modf] splits the seconds, the fractional part is multiplied by 1e6
    in floating point (one rounding), and the product is rounded to an
    integer, ties to even. *)
Definition seconds_to_microseconds (x : float) : option Z :=
  match to_dyadic x with
  | None => None
  | Some (m, e) =>
      let '(ip, fr) := dyadic_modf m e in
      match to_dyadic (round_to_float (fr * 1000000) e) with
      | None => None
      | Some (pm, pe) => Some (ip * 1000000 + dyadic_round_half_even pm pe)
      end
  end.

End PyFloat.

(** ** Python runtime: [datetime], [timedelta] and the [pytz] zones *)

Module Datetime.
Import Py PyFloat.

(** The two zones that [time_utils.py] names. *)
Inductive tzinfo : Type :=
  | pytz_UTC
  | pytz_Asia_Tokyo.

(** A [datetime] object: its calendar fields and its [tzinfo]. *)
Record datetime : Type := mk_datetime {
  year : Z;
  month : Z;
  day : Z;
  hour : Z;
  minute : Z;
  second : Z;
  microsecond : Z;
  tz : tzinfo
}.

Definition MINYEAR : Z := 1.
Definition MAXYEAR : Z := 9999.

(** Days from 1970-01-01 to the given day of the proleptic Gregorian
    calendar, and back. *)
Definition days_from_civil (y m d : Z) : Z :=
  let y' := if m <=? 2 then y - 1 else y in
  let era := y' / 400 in
  let yoe := y' - era * 400 in
  let mp := if 2 <? m then m - 3 else m + 9 in
  let doy := (153 * mp + 2) / 5 + d - 1 in
  let doe := yoe * 365 + yoe / 4 - yoe / 100 + doy in
  era * 146097 + doe - 719468.

Definition civil_from_days (z : Z) : Z * Z * Z :=
  let z' := z + 719468 in
  let era := z' / 146097 in
  let doe := z' - era * 146097 in
  let yoe := (doe - doe / 1460 + doe / 36524 - doe / 146096) / 365 in
  let doy := doe - (365 * yoe + yoe / 4 - yoe / 100) in
  let mp := (5 * doy + 2) / 153 in
  let d := doy - (153 * mp + 2) / 5 + 1 in
  let m := if mp <? 10 then mp + 3 else mp - 9 in
  let y := yoe + era * 400 in
  (if m <=? 2 then y + 1 else y, m, d).

(** The calendar fields of a [datetime] as microseconds from
    1970-01-01 00:00:00 on the same clock, and back. *)
Definition to_microseconds (dt : datetime) : Z :=
  ((days_from_civil (year dt) (month dt) (day dt) * 86400
    + hour dt * 3600 + minute dt * 60 + second dt) * 1000000)
  + microsecond dt.

Definition of_microseconds (us : Z) (zone : tzinfo) : datetime :=
  let secs := us / 1000000 in
  let days := secs / 86400 in
  let sod := secs mod 86400 in
  let '(y, m, d) := civil_from_days days in
  mk_datetime y m d (sod / 3600) ((sod mod 3600) / 60) (sod mod 60)
              (us mod 1000000) zone.

(** [datetime.fromtimestamp(x, tz=pytz.UTC)] for a float [x].  The
    seconds must fit [time_t], [gmtime] must be able to hold the year in
    a C [int], and the year must lie in [MINYEAR..MAXYEAR]. *)
Definition fromtimestamp_utc (x : float) : result datetime :=
  match seconds_to_microseconds x with
  | None => Raise (ValueError "Invalid value NaN (not a number)")
  | Some us =>
      let secs := us / 1000000 in
      if negb ((- 2 ^ 63 <=? secs) && (secs <=? 2 ^ 63))
      then Raise (OverflowError "timestamp out of range for platform time_t")
      else
        let dt := of_microseconds us pytz_UTC in
        let tm_year := year dt - 1900 in
        if negb ((- 2 ^ 31 <=? tm_year) && (tm_year <? 2 ^ 31))
        then Raise (OSError
                      "[Errno 75] Value too large for defined data type")
        else if negb ((MINYEAR <=? year dt) && (year dt <=? MAXYEAR))
        then Raise (ValueError
                      ("year " +:+ str_int (year dt) +:+ " is out of range"))
        else Return dt
  end.

(** A [timedelta], kept as its total number of microseconds. *)
Definition timedelta : Type := Z.

(** [timedelta(seconds=x)] for a float [x]. *)
Definition timedelta_seconds (x : float) : result timedelta :=
  match seconds_to_microseconds x with
  | None => Raise (ValueError "cannot convert float NaN to integer")
  | Some us =>
      let days := us / 86400000000 in
      if negb ((- 2 ^ 31 <=? days) && (days <? 2 ^ 31))
      then Raise (OverflowError "Python int too large to convert to C int")
      else if 999999999 <? Z.abs days
      then Raise (OverflowError
                    ("days=" +:+ str_int days
                     +:+ "; must have magnitude <= 999999999"))
      else Return us
  end.

(** [dt + delta] *)
Definition add (dt : datetime) (delta : timedelta) : result datetime :=
  let r := of_microseconds (to_microseconds dt + delta) (tz dt) in
  if (MINYEAR <=? year r) && (year r <=? MAXYEAR)
  then Return r
  else Raise (OverflowError "date value out of range").

(** The offset from UTC, in seconds, that [pytz.timezone('Asia/Tokyo')]
    applies at the UTC instant [utc_us] (microseconds from the UNIX
    epoch): the entry of its transition table found by [bisect_right].
    Before the first transition pytz applies local mean time, which it
    rounds to whole minutes. *)
Definition Asia_Tokyo_transitions : list (Z * Z) :=
  [ (-2587712400, 32400); (-683802000, 36000); (-672310800, 32400);
    (-654771600, 36000); (-640861200, 32400); (-620298000, 36000);
    (-609411600, 32400); (-588848400, 36000); (-577962000, 32400) ].

Definition Asia_Tokyo_LMT : Z := 33540.

Fixpoint transition_lookup (table : list (Z * Z)) (current : Z) (utc_us : Z)
  : Z :=
  match table with
  | [] => current
  | (t, off) :: rest =>
      if t * 1000000 <=? utc_us then transition_lookup rest off utc_us
      else current
  end.

Definition Asia_Tokyo_utcoffset (utc_us : Z) : Z :=
  transition_lookup Asia_Tokyo_transitions Asia_Tokyo_LMT utc_us.

(** [dt.astimezone(pytz.timezone('Asia/Tokyo'))] for an aware [dt] whose
    zone is [pytz.UTC]: the UTC fields are handed to the [fromutc] of the
    zone, which adds the offset in force. *)
Definition astimezone_Asia_Tokyo (dt : datetime) : result datetime :=
  let utc_us := to_microseconds dt in
  let r := of_microseconds
             (utc_us + Asia_Tokyo_utcoffset utc_us * 1000000)
             pytz_Asia_Tokyo in
  if (MINYEAR <=? year r) && (year r <=? MAXYEAR)
  then Return r
  else Raise (OverflowError "date value out of range").

(** A field printed with [%02d]. *)
Definition two_digits (n : Z) : string :=
  if n <? 10 then "0" +:+ str_int n else str_int n.

(** [dt.strftime('%Y-%m-%d %H:%M:%S')]; glibc does not pad the year. *)
Definition strftime_Ymd_HMS (dt : datetime) : string :=
  str_int (year dt) +:+ "-" +:+ two_digits (month dt) +:+ "-"
  +:+ two_digits (day dt) +:+ " " +:+ two_digits (hour dt) +:+ ":"
  +:+ two_digits (minute dt) +:+ ":" +:+ two_digits (second dt).

(** The clock of Asia/Tokyo, the way pytz keeps it, [s] seconds after
    the UNIX epoch, printed. *)
Definition Asia_Tokyo_clock (s : Z) : string :=
  strftime_Ymd_HMS
    (of_microseconds ((s + Asia_Tokyo_utcoffset (s * 1000000)) * 1000000)
       pytz_Asia_Tokyo).

End Datetime.

(** ** [src/utils/time_utils.py] *)

Module TimeUtils.
Import Py PyFloat Datetime.

(** The text of [f"変換エラー: {e}"]. *)
Definition conversion_error (e : exn) : string :=
  "変換エラー: " +:+ exn_str e.

(** [unix_micro_to_jst]: the argument is divided by 1000, read as seconds
    from the UNIX epoch and printed on the clock of Asia/Tokyo.  Every
    exception becomes the returned text. *)
Definition unix_micro_to_jst (unix_milli : Z) : string :=
  match
    unix_seconds ← int_truediv unix_milli 1000;
    utc_time ← fromtimestamp_utc unix_seconds;
    jst_time ← astimezone_Asia_Tokyo utc_time;
    mret (strftime_Ymd_HMS jst_time)
  with
  | Return s => s
  | Raise e => conversion_error e
  end.

(** [epoch + timedelta(seconds=seconds)], moved to Asia/Tokyo and printed:
    the common tail of the MAC, WEBKIT, FILETIME and COCOA branches. *)
Definition epoch_plus_seconds (epoch : datetime) (seconds : float)
  : result string :=
  delta ← timedelta_seconds seconds;
  dt ← add epoch delta;
  local ← astimezone_Asia_Tokyo dt;
  mret (strftime_Ymd_HMS local).

(** How the [try] block of [convert_timestamp] ends when it does not
    raise: with a [return], or by running off its end with [value] bound
    to an [int]. *)
Inductive flow : Type :=
  | Returned (s : string)
  | FellThrough (value : Z).

(** The [if]/[elif] chain on [format_type], for a numeric [value]. *)
Definition dispatch (value : Z) (format_type : string) : result flow :=
  if String.eqb format_type "JST" then
    mret (Returned (unix_micro_to_jst value))
  else if String.eqb format_type "UNIX" then
    mret (Returned (str (PyInt value)))
  else if String.eqb format_type "UNIX_SEC" then
    mret (Returned (str (PyInt (value / 1000000))))
  else if String.eqb format_type "MAC" then
    let mac_epoch := mk_datetime 2001 1 1 0 0 0 0 pytz_UTC in
    seconds ← int_truediv value 1000000;
    Returned <$> epoch_plus_seconds mac_epoch seconds
  else if String.eqb format_type "WEBKIT" then
    let webkit_epoch := mk_datetime 1601 1 1 0 0 0 0 pytz_UTC in
    seconds ← int_truediv value 1000000;
    Returned <$> epoch_plus_seconds webkit_epoch seconds
  else if String.eqb format_type "FILETIME" then
    let filetime_epoch := mk_datetime 1601 1 1 0 0 0 0 pytz_UTC in
    seconds ← int_truediv (value * 100) 1000000000;
    Returned <$> epoch_plus_seconds filetime_epoch seconds
  else if String.eqb format_type "COCOA" then
    let cocoa_epoch := mk_datetime 2001 1 1 0 0 0 0 pytz_UTC in
    seconds ← int_truediv value 1000000;
    Returned <$> epoch_plus_seconds cocoa_epoch seconds
  else
    mret (FellThrough value).

Section Convert.

(** The builtin [int] applied to a [str]: its value, or [None] where it
    raises [ValueError]. *)
Variable int_of_str : string -> option Z.

Definition int_builtin (s : string) : result Z :=
  match int_of_str s with
  | Some n => Return n
  | None => Raise (ValueError "invalid literal for int() with base 10")
  end.

(** The body of the outer [try].  An [int] is numeric already; any other
    value goes through [int(str(value).replace('➡', ''))], and a
    [ValueError] or [TypeError] there returns [str(value)]. *)
Definition try_block (value : pyval) (format_type : string) : result flow :=
  match value with
  | PyInt n => dispatch n format_type
  | _ =>
      match int_builtin (str_remove "➡" (str value)) with
      | Return n => dispatch n format_type
      | Raise (ValueError _) | Raise (TypeError _) =>
          Return (Returned (str value))
      | Raise e => Raise e
      end
  end.

(** [convert_timestamp] *)
Definition convert_timestamp (value : pyval) (format_type : string)
  : result string :=
  match try_block value format_type with
  | Return (Returned s) => Return s
  | Return (FellThrough n) => Return (str (PyInt n))
  | Raise e => Return (conversion_error e)
  end.

End Convert.

End TimeUtils.

(** ** The [sqlite3] module and the file system *)

Module Sqlite3.
Import Py.

(** A row handed out by [fetchall]: a tuple of cell values. *)
Abbreviation row := (list pyval).

(** One column of a table, as [PRAGMA table_info] reports it. *)
Record column : Type := mk_column {
  cid : Z;
  name : string;
  type : string;
  notnull : Z;
  dflt_value : pyval;
  pk : Z
}.

(** A table: its declared columns and its rows in storage order. *)
Record table : Type := mk_table {
  columns : list column;
  rows : list row
}.

(** What a path of the file system holds: a database, given by its
    catalog from table names to tables, or anything else.  A table name
    written into a statement denotes the catalog entry of exactly that
    name. *)
Inductive file : Type :=
  | SqliteFile (catalog : gmap string table)
  | OtherFile.

Abbreviation filesystem := (gmap string file).

(** The statements that [database_utils.py] formats and executes. *)
Inductive statement : Type :=
  (* f"PRAGMA table_info({table_name})" *)
  | PRAGMA_table_info (table_name : string)
  (* f"SELECT * FROM {table_name}" and
     f"SELECT * FROM {table_name} LIMIT {limit}" *)
  | SELECT_all_FROM (table_name : string) (LIMIT : option Z).

Definition table_info_row (c : column) : row :=
  [PyInt (cid c); PyStr (name c); PyStr (type c); PyInt (notnull c);
   dflt_value c; PyInt (pk c)].

(** The rows a statement produces.  [PRAGMA table_info] of an unknown
    table produces no row and no error; [SELECT] from an unknown table is
    an error.  A negative [LIMIT] is no limit.  A file that is not a
    database fails every statement. *)
Definition run (f : file) (stmt : statement) : result (list row) :=
  match f with
  | OtherFile => Raise (DatabaseError "file is not a database")
  | SqliteFile catalog =>
      match stmt with
      | PRAGMA_table_info t =>
          match catalog !! t with
          | Some tbl => Return (table_info_row <$> columns tbl)
          | None => Return []
          end
      | SELECT_all_FROM t lim =>
          match catalog !! t with
          | Some tbl =>
              match lim with
              | Some n =>
                  if n <? 0 then Return (rows tbl)
                  else Return (take (Z.to_nat n) (rows tbl))
              | None => Return (rows tbl)
              end
          | None => Raise (OperationalError ("no such table: " +:+ t))
          end
      end
  end.

(** A cursor: the file of its connection and the rows of the last
    statement that have not been fetched. *)
Record cursor : Type := mk_cursor {
  connection : file;
  pending : list row
}.

(** [cursor.execute(stmt)]: the rows of the statement become pending; a
    failing statement leaves none. *)
Definition execute (c : cursor) (stmt : statement) : result () * cursor :=
  match run (connection c) stmt with
  | Return rs => (Return (), mk_cursor (connection c) rs)
  | Raise e => (Raise e, mk_cursor (connection c) [])
  end.

(** [cursor.fetchall()]: a new list of the pending rows. *)
Definition fetchall (c : cursor) : list row * cursor :=
  (pending c, mk_cursor (connection c) []).

(** [os.path.exists(path)] *)
Definition os_path_exists (fs : filesystem) (path : string) : bool :=
  bool_decide (is_Some (fs !! path)).

(** [sqlite3.connect(f"file:{path}?mode=ro", uri=True).cursor()]: a
    read-only connection does not create a missing file. *)
Definition connect_ro (fs : filesystem) (path : string) : result cursor :=
  match fs !! path with
  | Some f => Return (mk_cursor f [])
  | None => Raise (OperationalError "unable to open database file")
  end.

End Sqlite3.

(** ** [src/utils/database_utils.py] *)

Module DatabaseUtils.
Import Py Sqlite3.

(** What the functions of the module act on: the cursor they are given,
    and the standard output. *)
Record state : Type := mk_state {
  the_cursor : cursor;
  stdout : list string
}.

(** A computation that may change the state and may raise. *)
Definition io (A : Type) : Type := state -> result A * state.

#[export] Instance io_ret : MRet io := fun A a st => (Return a, st).
#[export] Instance io_bind : MBind io := fun A B k m st =>
  match m st with
  | (Return a, st') => k a st'
  | (Raise e, st') => (Raise e, st')
  end.

Definition raise_from {A} (r : result A) : io A := fun st => (r, st).

(** [try: body / except Exception as e: handler] *)
Definition try_except {A} (body : io A) (handler : exn -> io A) : io A :=
  fun st =>
    match body st with
    | (Return a, st') => (Return a, st')
    | (Raise e, st') => handler e st'
    end.

(** [print(line)] *)
Definition print (line : string) : io () :=
  fun st => (Return (), mk_state (the_cursor st) (stdout st ++ [line])).

Definition cursor_execute (stmt : statement) : io () :=
  fun st =>
    let '(r, c) := execute (the_cursor st) stmt in
    (r, mk_state c (stdout st)).

Definition cursor_fetchall : io (list row) :=
  fun st =>
    let '(rs, c) := fetchall (the_cursor st) in
    (Return rs, mk_state c (stdout st)).

(** An element of the sets [db_keys] and [wal_only_keys]: a tuple of
    cell values, or an [int]. *)
Inductive key : Type :=
  | KeyTuple (t : list pyval)
  | KeyIndex (i : Z).

#[export] Instance key_eq_dec : EqDecision key.
Proof. solve_decision. Defined.

#[export] Instance key_countable : Countable key.
Proof.
  refine (inj_countable'
            (fun k => match k with KeyTuple t => inl t | KeyIndex i => inr i end)
            (fun x => match x with inl t => KeyTuple t | inr i => KeyIndex i end)
            _).
  intros []; reflexivity.
Defined.

(** [get_wal_data] *)
Definition get_wal_data (fs : filesystem) (db_path table_name : string)
  : io (list row) :=
  let wal_path := db_path +:+ "-wal" in
  if negb (os_path_exists fs wal_path) then mret []
  else
    try_except
      (wal_cursor ← raise_from (connect_ro fs wal_path);
       let '(r, wal_cursor) :=
         execute wal_cursor (SELECT_all_FROM table_name None) in
       _ ← raise_from r;
       let '(wal_data, _) := fetchall wal_cursor in
       mret wal_data)
      (fun e =>
         _ ← print ("WAL reading error: " +:+ exn_str e);
         mret []).

(** [tuple(row[idx] for idx in pk_indices)] *)
Definition row_key (pk_indices : list nat) (row : row) : result key :=
  KeyTuple <$> comprehension always (tuple_get row) pk_indices.

(** The loop over the rows of the main database:
    [for row in db_data: key = ...; db_keys.add(key)]. *)
Fixpoint main_keys_loop (pk_indices : list nat) (db_data : list row)
  (db_keys : gset key) : result (gset key) :=
  match db_data with
  | [] => Return db_keys
  | row :: rest =>
      key ← row_key pk_indices row;
      main_keys_loop pk_indices rest (db_keys ∪ {[key]})
  end.

(** The loop over the rows read from the WAL file: a row whose key is
    not among [db_keys] is appended to [db_data] and its key is added to
    [wal_only_keys]. *)
Fixpoint wal_loop (pk_indices : list nat) (db_keys : gset key)
  (wal_data : list row) (wal_only_keys : gset key) (db_data : list row)
  : result (gset key * list row) :=
  match wal_data with
  | [] => Return (wal_only_keys, db_data)
  | row :: rest =>
      key ← row_key pk_indices row;
      if decide (key ∉ db_keys)
      then wal_loop pk_indices db_keys rest
             (wal_only_keys ∪ {[key]}) (db_data ++ [row])
      else wal_loop pk_indices db_keys rest wal_only_keys db_data
  end.

(** Truth value of the [limit] argument, an [int] or [None]. *)
Definition limit_truthy (limit : option Z) : bool :=
  match limit with
  | Some n => truthy (PyInt n)
  | None => truthy PyNone
  end.

(** [set(range(a, b))] *)
Definition set_range (a b : Z) : gset key :=
  list_to_set (KeyIndex <$> seqZ a (b - a)).

(** [get_table_contents_with_wal]; the [cursor] argument is the cursor
    of the state. *)
Definition get_table_contents_with_wal (fs : filesystem)
  (table_name db_path : string) (limit : option Z)
  : io (list pyval * list row * gset key) :=
  try_except
    (_ ← cursor_execute (PRAGMA_table_info table_name);
     info ← cursor_fetchall;
     columns ← raise_from
       (comprehension always (fun col => tuple_get col 1) info);
     _ ← cursor_execute (PRAGMA_table_info table_name);
     info ← cursor_fetchall;
     pk_columns ← raise_from
       (comprehension (fun col => truthy <$> tuple_get col 5)
                      (fun col => tuple_get col 1) info);
     _ ← (if limit_truthy limit
          then cursor_execute (SELECT_all_FROM table_name limit)
          else cursor_execute (SELECT_all_FROM table_name None));
     db_data ← cursor_fetchall;
     wal_data ← get_wal_data fs db_path table_name;
     let db_keys : gset key := ∅ in
     let wal_only_keys : gset key := ∅ in
     match pk_columns with
     | _ :: _ =>
         pk_indices ← raise_from
           (comprehension always (list_index columns) pk_columns);
         db_keys ← raise_from (main_keys_loop pk_indices db_data db_keys);
         '(wal_only_keys, db_data) ← raise_from
           (wal_loop pk_indices db_keys wal_data wal_only_keys db_data);
         mret (columns, db_data, wal_only_keys)
     | [] =>
         let db_data := db_data ++ wal_data in
         let wal_only_keys :=
           set_range (Z.of_nat (length db_data) - Z.of_nat (length wal_data))
                     (Z.of_nat (length db_data)) in
         mret (columns, db_data, wal_only_keys)
     end)
    (fun e =>
       _ ← print ("Error getting table contents with WAL: " +:+ exn_str e);
       mret ([], [], ∅)).

(** Unfolds the sequencing of [io] and the cursor operations. *)
Ltac io_step :=
  unfold mbind, io_bind, mret, io_ret, cursor_execute, cursor_fetchall,
    raise_from, execute, fetchall; cbn.

End DatabaseUtils.

(** ** What [get_table_contents_with_wal] reads

    The pieces of the two data sources that the properties below speak
    about, written as plain functions of the table and of the file
    system. *)

Module Reading.
Import Py Sqlite3 DatabaseUtils.

(** The names of the columns, and of those flagged as part of the
    primary key, as Python strings. *)
Definition column_names (tbl : table) : list pyval :=
  (fun c => PyStr (name c)) <$> columns tbl.

Definition is_pk (c : column) : bool := truthy (PyInt (pk c)).

Definition pk_column_names (tbl : table) : list pyval :=
  (fun c => PyStr (name c)) <$> filter (fun c => is_pk c) (columns tbl).

(** The position of the first column of a given name. *)
Definition position (names : list pyval) (x : pyval) : nat :=
  match list_index names x with
  | Return i => i
  | Raise _ => O
  end.

Definition pk_positions (tbl : table) : list nat :=
  position (column_names tbl) <$> pk_column_names tbl.

(** The primary-key tuple of a row. *)
Definition cell (r : row) (i : nat) : pyval := default PyNone (r !! i).

Definition pk_tuple (tbl : table) (r : row) : key :=
  KeyTuple (cell r <$> pk_positions tbl).

Definition keys_of (tbl : table) (l : list row) : gset key :=
  list_to_set (pk_tuple tbl <$> l).

(** A row with one cell for every column of the table. *)
Definition aligned (tbl : table) (r : row) : Prop :=
  length r = length (columns tbl).

(** The rows fetched from the main table under a limit. *)
Definition main_rows (limit : option Z) (tbl : table) : list row :=
  match limit with
  | Some n => if 0 <? n then take (Z.to_nat n) (rows tbl) else rows tbl
  | None => rows tbl
  end.

(** The rows of the same-named table in the file beside the database
    whose name ends in [-wal], if that file is a database with such a
    table; and the lines printed when it is not. *)
Definition wal_rows (fs : filesystem) (db_path table_name : string)
  : list row :=
  match fs !! (db_path +:+ "-wal") with
  | Some (SqliteFile catalog) =>
      match catalog !! table_name with
      | Some tbl => rows tbl
      | None => []
      end
  | _ => []
  end.

Definition wal_messages (fs : filesystem) (db_path table_name : string)
  : list string :=
  match fs !! (db_path +:+ "-wal") with
  | Some (SqliteFile catalog) =>
      match catalog !! table_name with
      | Some _ => []
      | None => ["WAL reading error: no such table: " +:+ table_name]
      end
  | Some OtherFile => ["WAL reading error: file is not a database"]
  | None => []
  end.

(** The WAL rows whose primary-key tuple is not the tuple of any of the
    given main rows. *)
Definition wal_only (tbl : table) (main wal : list row) : list row :=
  filter (fun r => pk_tuple tbl r ∉ keys_of tbl main) wal.

(** The number of rows of a list that carry a given primary-key
    tuple. *)
Definition rows_with_key (tbl : table) (k : key) (l : list row) : list row :=
  filter (fun r => pk_tuple tbl r = k) l.

(** The rows and the set of keys that a call returned; both are empty
    for a call that raised. *)
Definition returned_rows
  (r : result (list pyval * list row * gset key) * state) : list row :=
  match r.1 with
  | Return (_, rs, _) => rs
  | Raise _ => []
  end.

Definition returned_keys
  (r : result (list pyval * list row * gset key) * state) : gset key :=
  match r.1 with
  | Return (_, _, ks) => ks
  | Raise _ => ∅
  end.

(** The reading of the specification that every key of [wal_only_keys]
    belongs to exactly one returned row. *)
Definition each_key_marks_one_row (tbl : table)
  (r : result (list pyval * list row * gset key) * state) : Prop :=
  forall k, k ∈ returned_keys r ->
    length (rows_with_key tbl k (returned_rows r)) = 1%nat.

(** A state whose cursor is connected to the database [db]. *)
Definition connected (db : gmap string table) (st : state) : Prop :=
  connection (the_cursor st) = SqliteFile db.

(** The state after a call: nothing is pending on the cursor, and the
    given lines have been printed. *)
Definition after (st : state) (lines : list string) : state :=
  mk_state (mk_cursor (connection (the_cursor st)) []) (stdout st ++ lines).

End Reading.

(** ** Sample databases *)

Module Samples.
Import Py Sqlite3 DatabaseUtils Reading.

(** A message table keyed by [id], and the same table without a key. *)
Definition keyed_columns : list column :=
  [ mk_column 0 "id" "INTEGER" 0 PyNone 1;
    mk_column 1 "txt" "TEXT" 0 PyNone 0 ].

Definition unkeyed_columns : list column :=
  [ mk_column 0 "txt" "TEXT" 0 PyNone 0 ].

Definition message (id : Z) (txt : string) : row := [PyInt id; PyStr txt].

(** A database with the single table ["msg"], and a file system whose
    only file is the one beside ["line.db"] that holds the WAL rows. *)
Definition database_of (tbl : table) : gmap string table :=
  {[ "msg" := tbl ]}.

Definition wal_file_of (tbl : table) : gmap string file :=
  {[ "line.db-wal" := SqliteFile (database_of tbl) ]}.

Definition fresh_state (db : gmap string table) : state :=
  mk_state (mk_cursor (SqliteFile db) []) [].

(** Main row 1 "A"; WAL rows 1 "B" and 2 "C". *)
Definition main_A : table := mk_table keyed_columns [message 1 "A"].
Definition wal_BC : table :=
  mk_table keyed_columns [message 1 "B"; message 2 "C"].

(** Five main rows; two WAL rows with new keys. *)
Definition main_five : table :=
  mk_table keyed_columns
    [message 1 "A"; message 2 "B"; message 3 "C"; message 4 "D";
     message 5 "E"].
Definition wal_two_new : table :=
  mk_table keyed_columns [message 6 "F"; message 7 "G"].

(** Two WAL rows that share the key 2. *)
Definition wal_twice_2 : table :=
  mk_table keyed_columns [message 2 "C"; message 2 "D"].

(** A table without a primary key: main row "x", WAL row "y". *)
Definition main_x : table := mk_table unkeyed_columns [[PyStr "x"]].
Definition wal_y : table := mk_table unkeyed_columns [[PyStr "y"]].

End Samples.

(** ** [sqlite3]: the other statements of [database_utils.py] *)

Module Sqlite3Queries.
Import Py Sqlite3.

(** [isinstance(e, sqlite3.Error)] *)
Definition is_sqlite3_Error (e : exn) : bool :=
  match e with
  | OperationalError _ | DatabaseError _ => true
  | _ => false
  end.

(** The order of [ORDER BY name] on [sqlite_master]: the names are
    compared byte by byte. *)
Definition name_le (a b : string) : Prop := String.leb a b = true.

#[export] Instance name_le_dec : RelDecision name_le.
Proof. intros a b. unfold name_le. apply _. Defined.

(** The names of the tables of a catalog, in ascending order. *)
Definition table_names (catalog : gmap string table) : list string :=
  merge_sort name_le (map_to_list catalog).*1.

(** [LIMIT n] applied to the rows of a query; a negative [n] is no
    limit. *)
Definition limit_rows (LIMIT : option Z) (rs : list row) : list row :=
  match LIMIT with
  | Some n => if n <? 0 then rs else take (Z.to_nat n) rs
  | None => rs
  end.

(** The statements without a [WHERE] clause. *)
Inductive query : Type :=
  (* the statements of [get_table_contents_with_wal] *)
  | Statement (stmt : statement)
  (* "SELECT name FROM sqlite_master WHERE type='table' ORDER BY name;" *)
  | SELECT_name_FROM_sqlite_master
  (* f"SELECT COUNT(*) FROM {table_name}" *)
  | SELECT_COUNT_FROM (table_name : string).

Definition run_query (f : file) (q : query) : result (list row) :=
  match q, f with
  | Statement stmt, _ => run f stmt
  | _, OtherFile => Raise (DatabaseError "file is not a database")
  | SELECT_name_FROM_sqlite_master, SqliteFile catalog =>
      Return ((fun name => [PyStr name]) <$> table_names catalog)
  | SELECT_COUNT_FROM t, SqliteFile catalog =>
      match catalog !! t with
      | Some tbl => Return [[PyInt (Z.of_nat (length (rows tbl)))]]
      | None => Raise (OperationalError ("no such table: " +:+ t))
      end
  end.

(** [cursor.execute(query)] *)
Definition execute_query (c : cursor) (q : query) : result () * cursor :=
  match run_query (connection c) q with
  | Return rs => (Return (), mk_cursor (connection c) rs)
  | Raise e => (Raise e, mk_cursor (connection c) [])
  end.

(** [cursor.fetchone()]: the next pending row, or [None]. *)
Definition fetchone (c : cursor) : option row * cursor :=
  match pending c with
  | [] => (None, c)
  | r :: rest => (Some r, mk_cursor (connection c) rest)
  end.

(** The statements with a [WHERE] clause. *)
Inductive filtered_query : Type :=
  (* f"SELECT * FROM {table_name} WHERE Z_PK BETWEEN {start_pk} AND {end_pk}",
     with f" LIMIT {limit}" behind it when there is a limit *)
  | SELECT_all_FROM_WHERE_Z_PK_BETWEEN (table_name : string)
      (start_pk end_pk : Z) (LIMIT : option Z)
  (* "SELECT ZTIMESTAMP, ZTEXT, Z_PK FROM {table_name} WHERE Z_OPT = 1
      AND ZTEXT IS NOT NULL ORDER BY ZTIMESTAMP DESC" *)
  | SELECT_deleted_FROM (table_name : string).

Section Engine.

(** What SQLite makes of the two [WHERE] clauses on a table that exists
    depends on its column resolution, type affinities and query plan,
    which are not modelled: the rows, or the error, are those of the
    engine at hand. *)
Variable between_rows : table -> Z -> Z -> result (list row).
Variable deleted_rows : table -> result (list row).

Definition run_filtered (f : file) (q : filtered_query) : result (list row) :=
  match f with
  | OtherFile => Raise (DatabaseError "file is not a database")
  | SqliteFile catalog =>
      match q with
      | SELECT_all_FROM_WHERE_Z_PK_BETWEEN t start_pk end_pk lim =>
          match catalog !! t with
          | Some tbl => limit_rows lim <$> between_rows tbl start_pk end_pk
          | None => Raise (OperationalError ("no such table: " +:+ t))
          end
      | SELECT_deleted_FROM t =>
          match catalog !! t with
          | Some tbl => deleted_rows tbl
          | None => Raise (OperationalError ("no such table: " +:+ t))
          end
      end
  end.

Definition execute_filtered (c : cursor) (q : filtered_query)
  : result () * cursor :=
  match run_filtered (connection c) q with
  | Return rs => (Return (), mk_cursor (connection c) rs)
  | Raise e => (Raise e, mk_cursor (connection c) [])
  end.

End Engine.

End Sqlite3Queries.

(** ** [src/utils/database_utils.py]: the functions without WAL *)

Module DatabaseQueries.
Import Py Sqlite3 Sqlite3Queries DatabaseUtils.

Definition cursor_execute_query (q : query) : io () :=
  fun st =>
    let '(r, c) := execute_query (the_cursor st) q in
    (r, mk_state c (stdout st)).

Definition cursor_fetchone : io (option row) :=
  fun st =>
    let '(r, c) := fetchone (the_cursor st) in
    (Return r, mk_state c (stdout st)).

(** [try: body / except sqlite3.Error as e: handler]: any other
    exception passes through. *)
Definition try_except_sqlite3_Error {A} (body : io A) (handler : exn -> io A)
  : io A :=
  fun st =>
    match body st with
    | (Return a, st') => (Return a, st')
    | (Raise e, st') =>
        if is_sqlite3_Error e then handler e st' else (Raise e, st')
    end.

(** [x[i]] where [x] is a row or [None]. *)
Definition subscript (x : option row) (i : nat) : result pyval :=
  match x with
  | Some t => tuple_get t i
  | None => Raise (TypeError "'NoneType' object is not subscriptable")
  end.

(** [get_all_tables] *)
Definition get_all_tables : io (list pyval) :=
  _ ← cursor_execute_query SELECT_name_FROM_sqlite_master;
  tables ← cursor_fetchall;
  raise_from (comprehension always (fun table => tuple_get table 0) tables).

(** [get_table_info] *)
Definition get_table_info (table_name : string) : io (list row) :=
  _ ← cursor_execute (PRAGMA_table_info table_name);
  cursor_fetchall.

(** [get_table_row_count] *)
Definition get_table_row_count (table_name : string) : io pyval :=
  try_except_sqlite3_Error
    (_ ← cursor_execute_query (SELECT_COUNT_FROM table_name);
     first ← cursor_fetchone;
     raise_from (subscript first 0))
    (fun _ => mret (PyInt 0)).

Section Engine.

Variable between_rows : table -> Z -> Z -> result (list row).
Variable deleted_rows : table -> result (list row).

Definition cursor_execute_filtered (q : filtered_query) : io () :=
  fun st =>
    let '(r, c) :=
      execute_filtered between_rows deleted_rows (the_cursor st) q in
    (r, mk_state c (stdout st)).

(** [check_deleted_messages] *)
Definition check_deleted_messages (table_name : string) : io (list row) :=
  try_except_sqlite3_Error
    (_ ← cursor_execute_filtered (SELECT_deleted_FROM table_name);
     cursor_fetchall)
    (fun e =>
       _ ← print ("削除メッセージの検索エラー: " +:+ exn_str e);
       mret []).

(** [get_table_contents]: the [WHERE] clause is written only when both
    bounds are given, the [LIMIT] clause whenever a limit is given. *)
Definition get_table_contents (table_name : string)
  (start_pk end_pk limit : option Z) : io (list pyval * list row) :=
  try_except_sqlite3_Error
    (_ ← cursor_execute (PRAGMA_table_info table_name);
     info ← cursor_fetchall;
     columns ← raise_from
       (comprehension always (fun col => tuple_get col 1) info);
     _ ← match start_pk, end_pk with
         | Some a, Some b =>
             cursor_execute_filtered
               (SELECT_all_FROM_WHERE_Z_PK_BETWEEN table_name a b limit)
         | _, _ => cursor_execute (SELECT_all_FROM table_name limit)
         end;
     rows ← cursor_fetchall;
     mret (columns, rows))
    (fun e =>
       _ ← print ("テーブル内容の取得エラー: " +:+ exn_str e);
       mret ([], [])).

End Engine.

End DatabaseQueries.

(** ** [src/gui/gui_main.py]: how [on_table_select] marks the rows *)

Module GuiMain.
Import DatabaseUtils.

(** The tags of the row inserted at [actual_index]: the stripe, and
    ['wal_record'] when [actual_index in self.wal_records]. *)
Definition row_tags (wal_records : gset key) (actual_index : Z)
  : list string :=
  let row_tags := [if actual_index mod 2 =? 0 then "evenrow" else "oddrow"] in
  if decide (KeyIndex actual_index ∈ wal_records)
  then row_tags ++ ["wal_record"]
  else row_tags.

End GuiMain.

(** ** Sample cursors and files for the queries *)

Module QuerySamples.
Import Py Sqlite3 DatabaseUtils Samples.

(** A cursor on a file that is not a database. *)
Definition other_file_state : state := mk_state (mk_cursor OtherFile []) [].

(** A file system whose file beside ["line.db"] is not a database. *)
Definition wal_not_a_database : gmap string file :=
  {[ "line.db-wal" := OtherFile ]}.

(** What SQLite answers to the two [WHERE] clauses on the sample tables,
    which have none of the columns that the clauses name. *)
Definition no_Z_PK_column (tbl : table) (start_pk end_pk : Z)
  : result (list row) :=
  Raise (OperationalError "no such column: Z_PK").

Definition no_ZTIMESTAMP_column (tbl : table) : result (list row) :=
  Raise (OperationalError "no such column: ZTIMESTAMP").

End QuerySamples.

(** * Properties of the runtime model *)

Section RuntimeLemmas.
Import Py PyFloat Datetime TimeUtils.

Lemma digits2_pos_iter_xO (p : positive) (n : nat) :
  Zpos (digits2_pos (Nat.iter n xO p)) = Zpos (digits2_pos p) + Z.of_nat n.
Proof.
  induction n as [| n IH]; simpl; [ lia | ].
  rewrite Pos2Z.inj_succ, IH. lia.
Qed.

Lemma iter_pos_nat {A} (f : A -> A) (n : positive) (x : A) :
  SpecFloat.iter_pos f n x = Nat.iter (Pos.to_nat n) f x.
Proof.
  revert x. induction n as [n IH | n IH |]; intros x; cbn [SpecFloat.iter_pos].
  - rewrite !IH. rewrite Pos2Nat.inj_xI.
    replace (S (2 * Pos.to_nat n)) with (Pos.to_nat n + S (Pos.to_nat n))%nat
      by lia.
    rewrite Nat.iter_add, Nat.iter_succ_r. reflexivity.
  - rewrite !IH. rewrite Pos2Nat.inj_xO.
    replace (2 * Pos.to_nat n)%nat with (Pos.to_nat n + Pos.to_nat n)%nat by lia.
    rewrite Nat.iter_add. reflexivity.
  - reflexivity.
Qed.

Lemma pos_iter_nat {A} (f : A -> A) (n : positive) (x : A) :
  Pos.iter f x n = Nat.iter (Pos.to_nat n) f x.
Proof. apply Pos2Nat.inj_iter. Qed.

Lemma shr_1_iter_xO (p : positive) (n : nat) :
  Nat.iter n shr_1 (Build_shr_record (Zpos (Nat.iter n xO p)) false false)
  = Build_shr_record (Zpos p) false false.
Proof.
  induction n as [| n IH]; [ reflexivity | ].
  rewrite Nat.iter_succ_r. simpl. exact IH.
Qed.

Lemma Zpos_iter_xO (p : positive) (n : nat) :
  Zpos (Nat.iter n xO p) = Zpos p * 2 ^ Z.of_nat n.
Proof.
  induction n as [| n IH]; [ simpl; lia | ].
  rewrite Nat2Z.inj_succ, Z.pow_succ_r by lia. simpl Nat.iter.
  rewrite Pos2Z.inj_xO, IH. lia.
Qed.

(** A mantissa that already has the exponent of its format is kept. *)
Lemma binary_round_aux_canonical (sx : bool) (q : positive) (e : Z) :
  fexp prec emax (Zpos (digits2_pos q) + e) = e ->
  e <= emax - prec ->
  binary_round_aux prec emax sx (Zpos q) e loc_Exact = S754_finite sx q e.
Proof.
  intros Hc He. unfold binary_round_aux, shr_fexp. simpl Zdigits2.
  rewrite Hc, Z.sub_diag. simpl. rewrite Hc, Z.sub_diag. simpl.
  destruct (Z.leb_spec e (emax - prec)); [ done | lia ].
Qed.

(** Trailing zero bits beyond the format are shifted out without
    rounding. *)
Lemma binary_round_aux_shift (sx : bool) (q : positive) (e : Z) (n : positive) :
  fexp prec emax (Zpos (digits2_pos q) + (e + Zpos n)) = e + Zpos n ->
  e + Zpos n <= emax - prec ->
  binary_round_aux prec emax sx (Zpos (Nat.iter (Pos.to_nat n) xO q)) e loc_Exact
  = S754_finite sx q (e + Zpos n).
Proof.
  intros Hc He. unfold binary_round_aux, shr_fexp. simpl Zdigits2.
  rewrite digits2_pos_iter_xO, positive_nat_Z.
  replace (Zpos (digits2_pos q) + Zpos n + e)
    with (Zpos (digits2_pos q) + (e + Zpos n)) by lia.
  rewrite Hc. replace (e + Zpos n - e) with (Zpos n) by lia.
  unfold shr. rewrite iter_pos_nat. simpl shr_record_of_loc.
  rewrite shr_1_iter_xO. simpl.
  rewrite Hc, Z.sub_diag. simpl.
  destruct (Z.leb_spec (e + Zpos n) (emax - prec)); [ done | lia ].
Qed.

(** An integer of at most 53 bits, written with any number of trailing
    zero bits, is rounded to itself. *)
Lemma binary_round_exact (sx : bool) (p : positive) (j : nat) :
  Zpos (digits2_pos p) <= 53 ->
  exists (mz : positive) (ez : Z),
    binary_round prec emax sx (Nat.iter j xO p) (- Z.of_nat j)
    = S754_finite sx mz ez
    /\ ez <= 0 /\ Zpos mz = Zpos p * 2 ^ (- ez).
Proof.
  intros Hd. set (d := Zpos (digits2_pos p)) in *.
  assert (Hd1 : 1 <= d) by (unfold d; lia).
  assert (Hfexp : fexp prec emax d = d - 53).
  { unfold fexp, emin, prec, emax. lia. }
  unfold binary_round.
  rewrite digits2_pos_iter_xO. fold d.
  replace (d + Z.of_nat j + - Z.of_nat j) with d by lia.
  rewrite Hfexp. unfold shl_align.
  destruct (d - 53 - - Z.of_nat j) as [| n | n] eqn:Hn.
  - exists (Nat.iter j xO p), (- Z.of_nat j). split; [ | split ].
    + apply binary_round_aux_canonical.
      * rewrite digits2_pos_iter_xO. fold d.
        replace (d + Z.of_nat j + - Z.of_nat j) with d by lia.
        rewrite Hfexp. lia.
      * unfold emax, prec. lia.
    + lia.
    + rewrite Zpos_iter_xO. f_equal. f_equal. lia.
  - assert (Hj : j = (Pos.to_nat n + Z.to_nat (53 - d))%nat) by lia.
    exists (Nat.iter (Z.to_nat (53 - d)) xO p), (- Z.of_nat j + Zpos n).
    split; [ | split ].
    + replace (Nat.iter j xO p)
        with (Nat.iter (Pos.to_nat n) xO (Nat.iter (Z.to_nat (53 - d)) xO p))
        by (rewrite <- Nat.iter_add; f_equal; lia).
      apply binary_round_aux_shift.
      * rewrite digits2_pos_iter_xO. fold d.
        replace (d + Z.of_nat (Z.to_nat (53 - d)) + (- Z.of_nat j + Zpos n))
          with d by lia.
        rewrite Hfexp. lia.
      * unfold emax, prec. lia.
    + lia.
    + rewrite Zpos_iter_xO. f_equal. f_equal. lia.
  - exists (Pos.iter xO (Nat.iter j xO p) n), (d - 53).
    split; [ | split ].
    + apply binary_round_aux_canonical.
      * rewrite pos_iter_nat, <- Nat.iter_add, digits2_pos_iter_xO. fold d.
        replace (d + Z.of_nat (Pos.to_nat n + j) + (d - 53)) with d by lia.
        exact Hfexp.
      * unfold emax, prec. lia.
    + lia.
    + rewrite pos_iter_nat, <- Nat.iter_add, Zpos_iter_xO.
      f_equal. f_equal. lia.
Qed.

Lemma digits2_pos_size (p : positive) : digits2_pos p = Pos.size p.
Proof. induction p; simpl; congruence. Qed.

Lemma digits2_pos_bound (p : positive) :
  Zpos p < 2 ^ 53 -> Zpos (digits2_pos p) <= 53.
Proof.
  intros Hp. rewrite digits2_pos_size.
  pose proof (Pos.size_le p) as Hle.
  apply Pos2Z.pos_le_pos in Hle. rewrite Pos2Z.inj_pow in Hle.
  change (Zpos p~0) with (2 * Zpos p) in Hle.
  destruct (Z.le_gt_cases (Zpos (Pos.size p)) 53) as [| Hgt]; [ done | ].
  assert (2 ^ 54 <= 2 ^ Zpos (Pos.size p))
    by (apply Z.pow_le_mono_r; lia).
  change (2 ^ 54) with (2 * 2 ^ 53) in *. lia.
Qed.

(** The exact quotient of [b * s] by [b] is [s], and a float that holds
    the integer [s] is [s * 1000000] microseconds. *)
Lemma int_truediv_multiple (b s : Z) :
  0 < b -> Z.abs s < 2 ^ 53 ->
  exists x : float,
    int_truediv (b * s) b = Return x
    /\ seconds_to_microseconds x = Some (s * 1000000).
Proof.
  intros Hb Hs. unfold int_truediv.
  destruct (Z.eqb_spec b 0) as [| _]; [ lia | ].
  destruct (Z.eqb_spec (Z.abs (b * s)) 0) as [H0 | Hne].
  { assert (s = 0) by lia. subst s. eexists. split; [ reflexivity | ].
    vm_compute. reflexivity. }
  assert (Hs0 : s <> 0) by lia.
  set (k := Z.max 0 (Z.log2 (Z.abs b) - Z.log2 (Z.abs (b * s)) + 56)).
  assert (Hk : 0 <= k) by (unfold k; lia).
  replace (Z.abs (b * s) * 2 ^ k) with (Z.abs s * 2 ^ k * Z.abs b)
    by (rewrite Z.abs_mul; ring).
  assert (Hb' : Z.abs b <> 0) by lia.
  rewrite Z.div_mul, Z.mod_mul by exact Hb'. simpl (if 0 =? 0 then 0 else 1).
  assert (Hneg : xorb (b * s <? 0) (b <? 0) = (s <? 0)).
  { destruct (Z.ltb_spec b 0); [ lia | ]. rewrite xorb_false_r.
    destruct (Z.ltb_spec (b * s) 0), (Z.ltb_spec s 0); try done; nia. }
  rewrite Hneg.
  set (p := Z.to_pos (Z.abs s)).
  assert (Hp : Z.abs s = Zpos p) by (unfold p; lia).
  assert (Hm : 2 * (Z.abs s * 2 ^ k) + 0
               = Zpos (Nat.iter (Z.to_nat (k + 1)) xO p)).
  { rewrite Zpos_iter_xO, Z2Nat.id, Z.pow_add_r, <- Hp by lia. lia. }
  rewrite Hm.
  destruct (binary_round_exact (s <? 0) p (Z.to_nat (k + 1)))
    as (mz & ez & Hround & Hez & Hmz).
  { apply digits2_pos_bound. lia. }
  replace (- Z.of_nat (Z.to_nat (k + 1))) with (- k - 1) in Hround by lia.
  assert (Hfloat : round_to_float
                     (cond_Zopp (s <? 0)
                        (Zpos (Nat.iter (Z.to_nat (k + 1)) xO p)))
                     (- k - 1)
                   = S754_finite (s <? 0) mz ez).
  { unfold round_to_float, binary_normalize.
    destruct (s <? 0); simpl cond_Zopp; exact Hround. }
  rewrite Hfloat. eexists. split; [ reflexivity | ].
  unfold seconds_to_microseconds, to_dyadic, dyadic_modf.
  assert (Hval : cond_Zopp (s <? 0) (Zpos mz) = s * 2 ^ (- ez)).
  { rewrite Hmz, <- Hp. destruct (Z.ltb_spec s 0); simpl cond_Zopp; lia. }
  rewrite Hval.
  destruct (Z.leb_spec 0 ez).
  - replace ez with 0 by lia.
    change (round_to_float (0 * 1000000) 0) with (S754_zero false).
    cbv beta iota. change (dyadic_round_half_even 0 0) with 0.
    f_equal. change (2 ^ (- 0)) with 1. change (2 ^ 0) with 1. lia.
  - rewrite Z.quot_mul, Z.rem_mul by lia.
    change (round_to_float (0 * 1000000) ez) with (S754_zero false).
    cbv beta iota. change (dyadic_round_half_even 0 0) with 0.
    f_equal. lia.
Qed.

(** The calendar repeats every 400 years, which are 146097 days. *)
Lemma civil_from_days_period (z e : Z) :
  civil_from_days (z + e * 146097)
  = let '(y, m, d) := civil_from_days z in (y + e * 400, m, d).
Proof.
  unfold civil_from_days.
  replace (z + e * 146097 + 719468) with (z + 719468 + e * 146097) by lia.
  rewrite Z.div_add by lia.
  set (era := (z + 719468) / 146097).
  replace (z + 719468 + e * 146097 - (era + e) * 146097)
    with (z + 719468 - era * 146097) by lia.
  set (doe := z + 719468 - era * 146097).
  cbv zeta.
  set (yoe := (doe - doe / 1460 + doe / 36524 - doe / 146096) / 365).
  set (doy := doe - (365 * yoe + yoe / 4 - yoe / 100)).
  set (mp := (5 * doy + 2) / 153).
  destruct (mp <? 10); destruct (_ <=? 2); f_equal; f_equal; lia.
Qed.

Lemma days_from_civil_period (y m d e : Z) :
  days_from_civil (y + e * 400) m d = days_from_civil y m d + e * 146097.
Proof.
  assert (Hgen : forall y',
    let era := (y' + e * 400) / 400 in
    let yoe := y' + e * 400 - era * 400 in
    let era0 := y' / 400 in
    let yoe0 := y' - era0 * 400 in
    era = era0 + e /\ yoe = yoe0).
  { intros y'. cbv zeta. rewrite Z.div_add by lia. lia. }
  unfold days_from_civil. cbv zeta.
  destruct (m <=? 2).
  - replace (y + e * 400 - 1) with (y - 1 + e * 400) by lia.
    destruct (Hgen (y - 1)) as [-> ->]. lia.
  - destruct (Hgen y) as [-> ->]. lia.
Qed.

(** A check that ran over [n] consecutive integers holds for each. *)
Lemma counted_check (P : Z -> bool) (n : nat) (z0 : Z) (acc : bool) :
  let r := Nat.iter n (fun st : Z * bool => (st.1 + 1, st.2 && P st.1))
             (z0, acc) in
  r.1 = z0 + Z.of_nat n
  /\ (r.2 = true -> acc = true /\ forall z, z0 <= z < z0 + Z.of_nat n -> P z = true).
Proof.
  induction n as [| n IH]; cbv zeta.
  - simpl. split; [ lia | ]. intros ->. split; [ done | lia ].
  - rewrite Nat.iter_succ. cbv zeta in IH. destruct IH as [IH1 IH2].
    cbn [fst snd]. rewrite IH1. split; [ lia | ].
    intros [Hacc HP]%andb_prop. destruct (IH2 Hacc) as [-> Hall].
    split; [ done | ]. intros z Hz.
    destruct (Z.eq_dec z (z0 + Z.of_nat n)) as [-> | Hne]; [ done | ].
    apply Hall. lia.
Qed.

(** The estimate of 365 times the year from the day of the era never
    decreases. *)
Lemma year_estimate_step (n : Z) :
  0 <= n ->
  n - n / 1460 + n / 36524 - n / 146096
  <= (n + 1) - (n + 1) / 1460 + (n + 1) / 36524 - (n + 1) / 146096.
Proof.
  intros Hn.
  pose proof (Z.div_mod n 1460). pose proof (Z.mod_pos_bound n 1460).
  pose proof (Z.div_mod (n + 1) 1460).
  pose proof (Z.mod_pos_bound (n + 1) 1460).
  pose proof (Z.div_mod n 36524). pose proof (Z.mod_pos_bound n 36524).
  pose proof (Z.div_mod (n + 1) 36524).
  pose proof (Z.mod_pos_bound (n + 1) 36524).
  pose proof (Z.div_mod n 146096). pose proof (Z.mod_pos_bound n 146096).
  pose proof (Z.div_mod (n + 1) 146096).
  pose proof (Z.mod_pos_bound (n + 1) 146096).
  lia.
Qed.

Lemma year_estimate_mono (a b : Z) :
  0 <= a <= b ->
  a - a / 1460 + a / 36524 - a / 146096
  <= b - b / 1460 + b / 36524 - b / 146096.
Proof.
  intros [Ha Hab]. revert b Hab.
  apply (Z.le_ind (fun b => a - a / 1460 + a / 36524 - a / 146096
                            <= b - b / 1460 + b / 36524 - b / 146096)).
  - intros x y ->. reflexivity.
  - lia.
  - intros m Hm IH. etransitivity; [ exact IH | ].
    replace (Z.succ m) with (m + 1) by lia.
    apply year_estimate_step. lia.
Qed.

(** Year by year through one period: on the first and on the last day
    of year [y] the estimate gives [y]. *)
Lemma year_estimate_ends (y : Z) :
  0 <= y < 400 ->
  let first := 365 * y + y / 4 - y / 100 in
  let last := 365 * (y + 1) + (y + 1) / 4 - (y + 1) / 100 - 1 in
  365 * y <= first - first / 1460 + first / 36524 - first / 146096
  /\ last - last / 1460 + last / 36524 - last / 146096 <= 365 * y + 364.
Proof.
  intros Hy.
  set (check := fun y : Z =>
         let first := 365 * y + y / 4 - y / 100 in
         let last := 365 * (y + 1) + (y + 1) / 4 - (y + 1) / 100 - 1 in
         (365 * y <=? first - first / 1460 + first / 36524 - first / 146096)
         && (last - last / 1460 + last / 36524 - last / 146096
             <=? 365 * y + 364)).
  assert (Hrun :
    (Pos.iter (fun st : Z * bool => (st.1 + 1, st.2 && check st.1))
       (0, true) 400).2 = true)
    by (vm_compute; reflexivity).
  rewrite Pos2Nat.inj_iter in Hrun.
  destruct (counted_check check (Pos.to_nat 400) 0 true) as [_ Hall].
  destruct (Hall Hrun) as [_ Hyears]. clear Hall Hrun.
  assert (Hc : check y = true) by (apply Hyears; lia).
  clear Hyears. unfold check in Hc. cbv zeta in Hc |- *.
  apply andb_prop in Hc as [H1 H2]. apply Z.leb_le in H1, H2. done.
Qed.

(** One period: the two conversions are inverse, and the years of the
    period are 0 to 400. *)
Lemma civil_one_period (doe : Z) :
  0 <= doe < 146097 ->
  let '(y, m, d) := civil_from_days (doe - 719468) in
  days_from_civil y m d = doe - 719468
  /\ 0 <= y <= 400
  /\ (306 <= doe -> 1 <= y)
  /\ (doe <= 146036 -> y <= 399).
Proof.
  intros Hdoe. unfold civil_from_days.
  replace (doe - 719468 + 719468) with doe by lia.
  rewrite (Z.div_small doe 146097) by lia.
  replace (doe - 0 * 146097) with doe by lia. cbv zeta.
  set (g := doe - doe / 1460 + doe / 36524 - doe / 146096).
  set (yoe := g / 365).
  (* the estimate stays within the period *)
  assert (Hg : 0 <= g <= 145999).
  { split.
    - etransitivity; [ | apply (year_estimate_mono 0 doe); lia ].
      vm_compute. discriminate.
    - etransitivity; [ apply (year_estimate_mono doe 146096); lia | ].
      vm_compute. discriminate. }
  assert (Hyoe : 0 <= yoe <= 399).
  { unfold yoe. split.
    - apply Z.div_pos; lia.
    - assert (g / 365 < 400); [ | lia ].
      apply Z.div_lt_upper_bound; lia. }
  pose proof (Z.div_mod g 365 ltac:(lia)) as Hgdiv.
  pose proof (Z.mod_pos_bound g 365 ltac:(lia)) as Hgmod.
  fold yoe in Hgdiv.
  (* the day lies in the year of the estimate *)
  assert (Hfirst : 365 * yoe + yoe / 4 - yoe / 100 <= doe).
  { destruct (Z.le_gt_cases (365 * yoe + yoe / 4 - yoe / 100) doe) as [| Hlt];
      [ done | exfalso ].
    destruct (Z.eq_dec yoe 0) as [H0 | H0].
    - rewrite H0 in Hlt. change (365 * 0 + 0 / 4 - 0 / 100) with 0 in Hlt. lia.
    - destruct (year_estimate_ends (yoe - 1)) as [_ Hlast]; [ lia | ].
      replace (yoe - 1 + 1) with yoe in Hlast by lia.
      pose proof (year_estimate_mono doe
                    (365 * yoe + yoe / 4 - yoe / 100 - 1)) as Hmono.
      fold g in Hmono. lia. }
  assert (Hnext : yoe <> 399 ->
                  doe < 365 * (yoe + 1) + (yoe + 1) / 4 - (yoe + 1) / 100).
  { intros H399.
    destruct (Z.lt_ge_cases doe
                (365 * (yoe + 1) + (yoe + 1) / 4 - (yoe + 1) / 100))
      as [| Hge]; [ done | exfalso ].
    destruct (year_estimate_ends (yoe + 1)) as [Hstart _]; [ lia | ].
    pose proof (year_estimate_mono
                  (365 * (yoe + 1) + (yoe + 1) / 4 - (yoe + 1) / 100)
                  doe) as Hmono.
    fold g in Hmono.
    assert (0 <= 365 * (yoe + 1) + (yoe + 1) / 4 - (yoe + 1) / 100).
    { pose proof (Z.div_mod (yoe + 1) 4 ltac:(lia)).
      pose proof (Z.mod_pos_bound (yoe + 1) 4 ltac:(lia)).
      pose proof (Z.div_mod (yoe + 1) 100 ltac:(lia)).
      pose proof (Z.mod_pos_bound (yoe + 1) 100 ltac:(lia)). lia. }
    lia. }
  set (doy := doe - (365 * yoe + yoe / 4 - yoe / 100)) in *.
  assert (Hyoe0 : yoe = 0 -> doy = doe).
  { intros H0. unfold doy. rewrite H0.
    change (0 / 4) with 0. change (0 / 100) with 0. lia. }
  assert (Hyoe399 : yoe = 399 -> doy = doe - 145731).
  { intros H0. unfold doy. rewrite H0.
    change (399 / 4) with 99. change (399 / 100) with 3. lia. }
  assert (Hdoy : 0 <= doy <= 365).
  { destruct (Z.eq_dec yoe 399) as [H399 | H399]; [ lia | ].
    specialize (Hnext H399). unfold doy.
    pose proof (Z.div_mod (yoe + 1) 4 ltac:(lia)).
    pose proof (Z.mod_pos_bound (yoe + 1) 4 ltac:(lia)).
    pose proof (Z.div_mod (yoe + 1) 100 ltac:(lia)).
    pose proof (Z.mod_pos_bound (yoe + 1) 100 ltac:(lia)).
    pose proof (Z.div_mod yoe 4 ltac:(lia)).
    pose proof (Z.mod_pos_bound yoe 4 ltac:(lia)).
    pose proof (Z.div_mod yoe 100 ltac:(lia)).
    pose proof (Z.mod_pos_bound yoe 100 ltac:(lia)). lia. }
  set (mp := (5 * doy + 2) / 153).
  assert (Hmp : 0 <= mp <= 11).
  { unfold mp. split.
    - apply Z.div_pos; lia.
    - assert ((5 * doy + 2) / 153 < 12); [ | lia ].
      apply Z.div_lt_upper_bound; lia. }
  pose proof (Z.div_mod (5 * doy + 2) 153 ltac:(lia)) as Hmpdiv.
  pose proof (Z.mod_pos_bound (5 * doy + 2) 153 ltac:(lia)) as Hmpmod.
  fold mp in Hmpdiv.
  unfold days_from_civil.
  destruct (Z.ltb_spec mp 10) as [Hlt | Hge].
  - (* March to December *)
    destruct (Z.leb_spec (mp + 3) 2) as [| _]; [ lia | ].
    destruct (Z.ltb_spec 2 (mp + 3)) as [_ |]; [ | lia ].
    replace (yoe + 0 * 400) with yoe by lia.
    rewrite (Z.div_small yoe 400) by lia. cbv zeta.
    replace (mp + 3 - 3) with mp by lia.
    replace (yoe - 0 * 400) with yoe by lia.
    subst doy.
    repeat split; lia.
  - (* January and February of the next year *)
    destruct (Z.leb_spec (mp - 9) 2) as [_ |]; [ | lia ].
    destruct (Z.ltb_spec 2 (mp - 9)) as [| _]; [ lia | ].
    replace (yoe + 0 * 400 + 1 - 1) with yoe by lia.
    rewrite (Z.div_small yoe 400) by lia. cbv zeta.
    replace (mp - 9 + 9) with mp by lia.
    replace (yoe - 0 * 400) with yoe by lia.
    subst doy.
    repeat split; lia.
Qed.

Lemma days_from_civil_from_days (z : Z) :
  let '(y, m, d) := civil_from_days z in days_from_civil y m d = z.
Proof.
  set (e := (z + 719468) / 146097).
  set (doe := (z + 719468) mod 146097).
  assert (Hz : z = doe - 719468 + e * 146097).
  { unfold doe, e. pose proof (Z.div_mod (z + 719468) 146097). lia. }
  assert (Hdoe : 0 <= doe < 146097) by (apply Z.mod_pos_bound; lia).
  rewrite Hz. rewrite civil_from_days_period.
  pose proof (civil_one_period doe Hdoe) as Hone.
  destruct (civil_from_days (doe - 719468)) as [[y m] d].
  rewrite days_from_civil_period. lia.
Qed.

Lemma civil_year_bounds (z : Z) :
  -719162 <= z <= 2932896 ->
  MINYEAR <= (civil_from_days z).1.1 <= MAXYEAR.
Proof.
  intros Hrange.
  set (e := (z + 719468) / 146097).
  set (doe := (z + 719468) mod 146097).
  assert (Hz : z = doe - 719468 + e * 146097).
  { unfold doe, e. pose proof (Z.div_mod (z + 719468) 146097). lia. }
  assert (Hdoe : 0 <= doe < 146097) by (apply Z.mod_pos_bound; lia).
  assert (He : 0 <= e <= 24).
  { unfold e. split.
    - apply Z.div_pos; lia.
    - assert ((z + 719468) / 146097 < 25); [ | lia ].
      apply Z.div_lt_upper_bound; lia. }
  assert (He24 : e = 24 -> doe <= 146036) by lia.
  rewrite Hz. rewrite civil_from_days_period.
  pose proof (civil_one_period doe Hdoe) as Hone.
  destruct (civil_from_days (doe - 719468)) as [[y m] d].
  destruct Hone as (_ & Hy & Hlo & Hhi). simpl. unfold MINYEAR, MAXYEAR.
  lia.
Qed.

Lemma to_of_microseconds (us : Z) (zone : tzinfo) :
  to_microseconds (of_microseconds us zone) = us.
Proof.
  unfold to_microseconds, of_microseconds.
  pose proof (days_from_civil_from_days (us / 1000000 / 86400)) as Hd.
  destruct (civil_from_days (us / 1000000 / 86400)) as [[y m] d]. simpl.
  rewrite Hd.
  set (secs := us / 1000000).
  pose proof (Z.div_mod us 1000000).
  pose proof (Z.div_mod secs 86400).
  set (sod := secs mod 86400) in *.
  pose proof (Z.div_mod sod 3600).
  pose proof (Z.div_mod (sod mod 3600) 60).
  pose proof (Z.div_mod sod 60).
  pose proof (Z.mod_pos_bound sod 60).
  pose proof (Z.mod_pos_bound (sod mod 3600) 60).
  lia.
Qed.

Lemma of_microseconds_year (us : Z) (zone : tzinfo) :
  -62135596800000000 <= us <= 253402300799999999 ->
  MINYEAR <= year (of_microseconds us zone) <= MAXYEAR.
Proof.
  intros Hus. unfold of_microseconds.
  assert (Hdays : -719162 <= us / 1000000 / 86400 <= 2932896).
  { rewrite Z.div_div by lia. split.
    - apply Z.div_le_lower_bound; lia.
    - assert (us / (1000000 * 86400) < 2932897); [ | lia ].
      apply Z.div_lt_upper_bound; lia. }
  pose proof (civil_year_bounds _ Hdays) as Hy.
  destruct (civil_from_days (us / 1000000 / 86400)) as [[y m] d]. exact Hy.
Qed.

Lemma Asia_Tokyo_utcoffset_bounds (us : Z) :
  32400 <= Asia_Tokyo_utcoffset us <= 36000
  /\ (-577962000 * 1000000 <= us -> Asia_Tokyo_utcoffset us = 32400).
Proof.
  unfold Asia_Tokyo_utcoffset, Asia_Tokyo_transitions, Asia_Tokyo_LMT.
  cbn [transition_lookup].
  repeat match goal with
  | |- context [?a <=? us] => destruct (Z.leb_spec a us)
  end; lia.
Qed.

Lemma fromtimestamp_utc_whole (x : float) (s : Z) :
  seconds_to_microseconds x = Some (s * 1000000) ->
  -62135596800 <= s <= 253402300799 ->
  fromtimestamp_utc x = Return (of_microseconds (s * 1000000) pytz_UTC).
Proof.
  intros Hus Hs. unfold fromtimestamp_utc. rewrite Hus.
  rewrite Z.div_mul by lia.
  destruct (Z.leb_spec (- 2 ^ 63) s); [ | lia ].
  destruct (Z.leb_spec s (2 ^ 63)); [ | lia ].
  cbn [andb negb].
  pose proof (of_microseconds_year (s * 1000000) pytz_UTC) as Hy.
  unfold MINYEAR, MAXYEAR in *.
  destruct Hy as [Hy1 Hy2]; [ lia | ].
  destruct (Z.leb_spec (- 2 ^ 31) (year (of_microseconds (s * 1000000) pytz_UTC) - 1900));
    [ | lia ].
  destruct (Z.ltb_spec (year (of_microseconds (s * 1000000) pytz_UTC) - 1900) (2 ^ 31));
    [ | lia ].
  cbn [andb negb].
  destruct (Z.leb_spec 1 (year (of_microseconds (s * 1000000) pytz_UTC)));
    [ | lia ].
  destruct (Z.leb_spec (year (of_microseconds (s * 1000000) pytz_UTC)) 9999);
    [ | lia ].
  reflexivity.
Qed.

Lemma year_check_pass (r : datetime) :
  MINYEAR <= year r <= MAXYEAR ->
  (MINYEAR <=? year r) && (year r <=? MAXYEAR) = true.
Proof.
  intros [H1 H2]. apply andb_true_intro. split; apply Z.leb_le; done.
Qed.

Lemma astimezone_Asia_Tokyo_whole (s : Z) :
  -62135596800 <= s <= 253402268399 ->
  astimezone_Asia_Tokyo (of_microseconds (s * 1000000) pytz_UTC)
  = Return (of_microseconds
              ((s + Asia_Tokyo_utcoffset (s * 1000000)) * 1000000)
              pytz_Asia_Tokyo).
Proof.
  intros Hs. unfold astimezone_Asia_Tokyo. rewrite to_of_microseconds.
  destruct (Asia_Tokyo_utcoffset_bounds (s * 1000000)) as [Hoff Hlate].
  replace (s * 1000000 + Asia_Tokyo_utcoffset (s * 1000000) * 1000000)
    with ((s + Asia_Tokyo_utcoffset (s * 1000000)) * 1000000) by lia.
  rewrite year_check_pass; [ reflexivity | ].
  apply of_microseconds_year.
  destruct (Z.le_gt_cases (-577962000) s).
  - rewrite Hlate by lia. lia.
  - lia.
Qed.

Lemma result_bind_return {A B : Type} (a : A) (k : A -> result B) :
  (Return a ≫= k) = k a.
Proof. reflexivity. Qed.

Lemma Asia_Tokyo_clock_unfold (s : Z) :
  Asia_Tokyo_clock s
  = strftime_Ymd_HMS
      (of_microseconds ((s + Asia_Tokyo_utcoffset (s * 1000000)) * 1000000)
         pytz_Asia_Tokyo).
Proof. reflexivity. Qed.

Lemma unix_micro_to_jst_unfold (unix_milli : Z) :
  unix_micro_to_jst unix_milli
  = match
      int_truediv unix_milli 1000 ≫= fun unix_seconds =>
      fromtimestamp_utc unix_seconds ≫= fun utc_time =>
      astimezone_Asia_Tokyo utc_time ≫= fun jst_time =>
      mret (strftime_Ymd_HMS jst_time)
    with
    | Return s => s
    | Raise e => conversion_error e
    end.
Proof. reflexivity. Qed.

Lemma unix_micro_to_jst_whole_seconds (s : Z) :
  -62135596800 <= s <= 253402268399 ->
  unix_micro_to_jst (1000 * s) = Asia_Tokyo_clock s.
Proof.
  intros Hs. rewrite unix_micro_to_jst_unfold, Asia_Tokyo_clock_unfold.
  destruct (int_truediv_multiple 1000 s) as (x & Hdiv & Hus); [ lia | lia | ].
  rewrite Hdiv, result_bind_return.
  rewrite (fromtimestamp_utc_whole x s Hus), result_bind_return by lia.
  rewrite astimezone_Asia_Tokyo_whole, result_bind_return by lia.
  reflexivity.
Qed.

End RuntimeLemmas.

(** * Properties of [time_utils.py] *)

Section TimeUtilsProperties.
Import Py PyFloat Datetime TimeUtils.

(** The properties hold whatever the builtin [int] makes of a string. *)
Variable int_of_str : string -> option Z.

Lemma decimal_value_str_int (v : Z) : decimal_value (str_int v) = Some v.
Proof.
  unfold decimal_value, str_int.
  rewrite NilZero.isi.
  - simpl. f_equal. apply DecimalZ.of_to.
  - destruct v; try discriminate.
    simpl; intros [= H]; revert H; apply DecimalPos.Unsigned.to_uint_nonnil.
  - destruct v; try discriminate.
    simpl; intros [= H]; revert H; apply DecimalPos.Unsigned.to_uint_nonnil.
Qed.

(** The [try] block of [convert_timestamp] on an [int] is the dispatch
    on the format tag. *)
Lemma try_block_int (n : Z) (format_type : string) :
  try_block int_of_str (PyInt n) format_type = dispatch n format_type.
Proof. reflexivity. Qed.

(** A tag that no branch of the dispatch tests runs off the end of the
    [try] block. *)
Lemma dispatch_unknown (n : Z) (format_type : string) :
  format_type ∉ ["JST"; "UNIX"; "UNIX_SEC"; "MAC"; "WEBKIT"; "FILETIME";
                 "COCOA"] ->
  dispatch n format_type = Return (FellThrough n).
Proof.
  intros Hnot. unfold dispatch.
  repeat match goal with
  | |- context [String.eqb format_type ?t] =>
      destruct (String.eqb_spec format_type t) as [-> | _];
      [ exfalso; apply Hnot; set_solver | ]
  end.
  reflexivity.
Qed.




(** C2, as the code has it: under the tag ["JST"] the value is divided
    by 1000, so it counts milliseconds from the UNIX epoch.  For every
    whole number [s] of seconds that [datetime] can hold, 1000 * [s] is
    printed as the clock of Asia/Tokyo [s] seconds after the epoch.  In
    particular 1704034800000 is printed as the first second of 2024,
    while 1704034800000000 lies beyond the last year of [datetime] and
    yields the diagnostic text. *)
Theorem convert_timestamp_JST_milliseconds :
  (forall s : Z,
     -62135596800 <= s <= 253402268399 ->
     convert_timestamp int_of_str (PyInt (1000 * s)) "JST"
       = Return (Asia_Tokyo_clock s))
  /\ convert_timestamp int_of_str (PyInt 1704034800000) "JST"
     = Return "2024-01-01 00:00:00"
  /\ convert_timestamp int_of_str (PyInt 1704034800000000) "JST"
     = Return "変換エラー: year 55968 is out of range".
Proof.
  split; [ | split; vm_compute; reflexivity ].
  intros s Hs. unfold convert_timestamp. rewrite try_block_int.
  unfold dispatch. simpl String.eqb. cbv iota.
  rewrite unix_micro_to_jst_whole_seconds by exact Hs. reflexivity.
Qed.

End TimeUtilsProperties.

Section TimeUtilsExamples.
Import Py PyFloat Datetime TimeUtils.

(** C2, witness: 1704034800 seconds after the epoch is the first second
    of 2024 in Asia/Tokyo. *)
Lemma convert_timestamp_JST_milliseconds_witness :
  -62135596800 <= 1704034800 <= 253402268399
  /\ convert_timestamp int_of_ascii_str (PyInt (1000 * 1704034800)) "JST"
     = Return "2024-01-01 00:00:00".
Proof.
  assert (H : -62135596800 <= 1704034800 <= 253402268399) by lia.
  split; [ exact H | ].
  rewrite (proj1 (convert_timestamp_JST_milliseconds int_of_ascii_str)
             1704034800 H).
  vm_compute. reflexivity.
Defined.

(** C2, counterexample: 1704034800000000 under ["JST"] is not printed as
    the first second of 2024. *)
Lemma convert_timestamp_JST_not_microseconds :
  convert_timestamp int_of_ascii_str (PyInt 1704034800000000) "JST"
    <> Return "2024-01-01 00:00:00".
Proof. vm_compute. discriminate. Qed.


(** The viewer passes the tag ["UNIX_second"], which no branch tests:
    the value comes back unchanged. *)
Example convert_timestamp_UNIX_second_spelling :
  convert_timestamp int_of_ascii_str (PyInt 1704034800000000) "UNIX_second"
    = Return "1704034800000000".
Proof. vm_compute. reflexivity. Qed.

Example convert_timestamp_WEBKIT_zero :
  convert_timestamp int_of_ascii_str (PyInt 0) "WEBKIT"
    = Return "1601-01-01 09:19:00".
Proof. vm_compute. reflexivity. Qed.

(** The failure paths are taken: an exception inside the [try] block,
    text that is no number, and text with the marker. *)
Example convert_timestamp_overflow :
  convert_timestamp int_of_ascii_str (PyInt (10 ^ 21)) "MAC"
    = Return "変換エラー: Python int too large to convert to C int".
Proof. vm_compute. reflexivity. Qed.

Example convert_timestamp_text :
  convert_timestamp int_of_ascii_str (PyStr "hello") "JST" = Return "hello".
Proof. vm_compute. reflexivity. Qed.

Example convert_timestamp_marker :
  convert_timestamp int_of_ascii_str (PyStr "➡1704034800000") "JST"
    = Return "2024-01-01 00:00:00".
Proof. vm_compute. reflexivity. Qed.

Example convert_timestamp_negative :
  convert_timestamp int_of_ascii_str (PyInt (-1)) "JST"
    = Return "1970-01-01 08:59:59".
Proof. vm_compute. reflexivity. Qed.

End TimeUtilsExamples.

(** * Properties of [database_utils.py] *)

Section Comprehensions.
Import Py.

Context {A B : Type}.

Lemma comprehension_filter (cond : A -> result bool) (elt : A -> result B)
  (c : A -> bool) (f : A -> B) (l : list A) :
  (forall x, x ∈ l -> cond x = Return (c x)) ->
  (forall x, x ∈ l -> elt x = Return (f x)) ->
  comprehension cond elt l = Return (f <$> filter (fun x => c x) l).
Proof.
  induction l as [| x l IH]; intros Hc He; [ reflexivity | ].
  simpl. rewrite Hc by set_solver. simpl.
  destruct (c x) eqn:Hcx.
  - rewrite filter_cons_True by (rewrite Hcx; done).
    rewrite He by set_solver. simpl.
    rewrite IH by (intros; first [apply Hc | apply He]; set_solver).
    reflexivity.
  - rewrite filter_cons_False by (rewrite Hcx; intros []).
    apply IH; intros; first [apply Hc | apply He]; set_solver.
Qed.

Lemma comprehension_always (elt : A -> result B) (f : A -> B) (l : list A) :
  (forall x, x ∈ l -> elt x = Return (f x)) ->
  comprehension always elt l = Return (f <$> l).
Proof.
  intros He.
  rewrite (comprehension_filter always elt (fun _ => true) f) by done.
  f_equal. f_equal. clear He. induction l as [| x l IH]; [ done | ].
  rewrite filter_cons_True by done. rewrite IH. reflexivity.
Qed.

End Comprehensions.

Section DatabaseUtilsLemmas.
Import Py Sqlite3 DatabaseUtils Reading Samples.

Lemma list_index_position (l : list pyval) (x : pyval) :
  x ∈ l ->
  list_index l x = Return (position l x) /\ (position l x < length l)%nat.
Proof.
  unfold position. induction l as [| y l IH]; intros Hx; [ set_solver | ].
  simpl. destruct (decide (y = x)) as [-> | Hne]; [ split; [done | simpl; lia] | ].
  destruct IH as [IH1 IH2]; [ set_solver | ].
  rewrite IH1. simpl. split; [ done | lia ].
Qed.

Lemma pk_column_names_subseteq (tbl : table) :
  pk_column_names tbl ⊆ column_names tbl.
Proof.
  unfold pk_column_names, column_names. intros x Hx.
  apply list_elem_of_fmap in Hx as (c & -> & Hc).
  apply list_elem_of_fmap. exists c. split; [ done | ].
  apply list_elem_of_filter in Hc. tauto.
Qed.

Lemma pk_indices_spec (tbl : table) :
  comprehension always (list_index (column_names tbl)) (pk_column_names tbl)
  = Return (pk_positions tbl).
Proof.
  apply comprehension_always. intros x Hx.
  apply list_index_position. by apply pk_column_names_subseteq.
Qed.

Lemma pk_positions_bound (tbl : table) (r : row) :
  aligned tbl r -> Forall (fun i => (i < length r)%nat) (pk_positions tbl).
Proof.
  intros Hr. unfold pk_positions. apply Forall_fmap, Forall_forall.
  intros x Hx. simpl. rewrite Hr.
  replace (length (columns tbl)) with (length (column_names tbl))
    by (unfold column_names; apply length_fmap).
  apply list_index_position. by apply pk_column_names_subseteq.
Qed.

Lemma row_key_aligned (tbl : table) (r : row) :
  aligned tbl r -> row_key (pk_positions tbl) r = Return (pk_tuple tbl r).
Proof.
  intros Hr. unfold row_key, pk_tuple.
  rewrite (comprehension_always _ (cell r)); [ done | ].
  intros i Hi. unfold tuple_get, cell.
  pose proof (pk_positions_bound tbl r Hr) as Hb.
  rewrite Forall_forall in Hb. specialize (Hb i Hi).
  destruct (lookup_lt_is_Some_2 r i Hb) as [v ->]. done.
Qed.

Lemma main_keys_loop_spec (tbl : table) (l : list row) (ks : gset key) :
  Forall (aligned tbl) l ->
  main_keys_loop (pk_positions tbl) l ks = Return (ks ∪ keys_of tbl l).
Proof.
  revert ks. induction l as [| r l IH]; intros ks Hl; simpl.
  - f_equal. unfold keys_of. set_solver.
  - inversion Hl as [| ? ? Hr Hl']; subst.
    rewrite (row_key_aligned tbl r Hr). simpl.
    rewrite IH by done. f_equal. unfold keys_of. set_solver.
Qed.

Lemma wal_loop_spec (tbl : table) (dbk : gset key) (wal : list row)
  (wk : gset key) (data : list row) :
  Forall (aligned tbl) wal ->
  wal_loop (pk_positions tbl) dbk wal wk data
  = Return (wk ∪ list_to_set (pk_tuple tbl <$> filter (fun r => pk_tuple tbl r ∉ dbk) wal),
            data ++ filter (fun r => pk_tuple tbl r ∉ dbk) wal).
Proof.
  revert wk data. induction wal as [| r wal IH]; intros wk data Hl; simpl.
  - rewrite app_nil_r. f_equal. f_equal. set_solver.
  - inversion Hl as [| ? ? Hr Hl']; subst.
    rewrite (row_key_aligned tbl r Hr). simpl.
    destruct (decide (pk_tuple tbl r ∉ dbk)) as [Hnew | Hold].
    + rewrite IH by done. rewrite filter_cons_True by done.
      rewrite <- app_assoc. simpl. f_equal. f_equal. set_solver.
    + rewrite IH by done. rewrite filter_cons_False by done. done.
Qed.

Lemma get_wal_data_spec (fs : gmap string file) (db_path t : string) (st : state) :
  get_wal_data fs db_path t st
  = (Return (wal_rows fs db_path t),
     mk_state (the_cursor st) (stdout st ++ wal_messages fs db_path t)).
Proof.
  destruct st as [c out].
  unfold get_wal_data, wal_rows, wal_messages, os_path_exists, try_except,
    connect_ro, raise_from, print, execute, fetchall, run.
  destruct (fs !! (db_path +:+ "-wal")) as [[catalog |] |] eqn:Hfs; simpl;
    unfold mbind, io_bind, mret, io_ret; simpl.
  - destruct (catalog !! t) as [tbl |]; simpl; by rewrite ?app_nil_r.
  - done.
  - by rewrite app_nil_r.
Qed.

Lemma table_info_names (tbl : table) :
  comprehension always (fun col => tuple_get col 1)
    (table_info_row <$> columns tbl)
  = Return (column_names tbl).
Proof.
  unfold column_names.
  rewrite (comprehension_always _ (fun col => default PyNone (col !! 1%nat))).
  - f_equal. rewrite <- list_fmap_compose. done.
  - intros col Hcol. apply list_elem_of_fmap in Hcol as (c & -> & _). done.
Qed.

Lemma table_info_pk_names (tbl : table) :
  comprehension (fun col => truthy <$> tuple_get col 5)
    (fun col => tuple_get col 1) (table_info_row <$> columns tbl)
  = Return (pk_column_names tbl).
Proof.
  unfold pk_column_names.
  rewrite (comprehension_filter _ _
             (fun col => truthy (default PyNone (col !! 5%nat)))
             (fun col => default PyNone (col !! 1%nat))).
  - f_equal. induction (columns tbl) as [| c l IH]; [ done | ].
    rewrite fmap_cons. destruct (is_pk c) eqn:Hc.
    + rewrite (filter_cons_True _ (table_info_row c))
        by (change (Is_true (is_pk c)); rewrite Hc; done).
      rewrite (filter_cons_True _ c) by (rewrite Hc; done).
      rewrite !fmap_cons, IH. done.
    + rewrite (filter_cons_False _ (table_info_row c))
        by (change (~ Is_true (is_pk c)); rewrite Hc; intros []).
      rewrite (filter_cons_False _ c) by (rewrite Hc; intros []).
      done.
  - intros col Hcol. apply list_elem_of_fmap in Hcol as (c & -> & _). done.
  - intros col Hcol. apply list_elem_of_fmap in Hcol as (c & -> & _). done.
Qed.

Lemma run_select (db : gmap string table) (t : string) (tbl : table)
  (limit : option Z) :
  db !! t = Some tbl ->
  run (SqliteFile db)
      (if limit_truthy limit then SELECT_all_FROM t limit
       else SELECT_all_FROM t None)
  = Return (main_rows limit tbl).
Proof.
  intros Ht. unfold main_rows, limit_truthy.
  destruct limit as [n |]; simpl; [ | by rewrite Ht ].
  destruct (Z.eqb_spec n 0) as [-> | Hn]; simpl; rewrite Ht; [ done | ].
  destruct (Z.ltb_spec n 0), (Z.ltb_spec 0 n); done || lia.
Qed.

#[local] Arguments run : simpl never.
#[local] Arguments get_wal_data : simpl never.

Lemma run_pragma (db : gmap string table) (t : string) :
  run (SqliteFile db) (PRAGMA_table_info t)
  = Return (match db !! t with
            | Some tbl => table_info_row <$> columns tbl
            | None => []
            end).
Proof. unfold run. by destruct (db !! t). Qed.

Lemma run_select_absent (db : gmap string table) (t : string)
  (limit : option Z) :
  db !! t = None ->
  run (SqliteFile db) (SELECT_all_FROM t limit)
  = Raise (OperationalError ("no such table: " +:+ t)).
Proof. intros Ht. unfold run. by rewrite Ht. Qed.




Lemma get_table_contents_with_wal_pk (fs : gmap string file)
  (t db_path : string) (limit : option Z) (db : gmap string table)
  (tbl : table) (st : state) :
  connected db st ->
  db !! t = Some tbl ->
  pk_column_names tbl <> [] ->
  Forall (aligned tbl) (main_rows limit tbl) ->
  Forall (aligned tbl) (wal_rows fs db_path t) ->
  get_table_contents_with_wal fs t db_path limit st
  = (Return (column_names tbl,
             main_rows limit tbl
               ++ wal_only tbl (main_rows limit tbl) (wal_rows fs db_path t),
             keys_of tbl
               (wal_only tbl (main_rows limit tbl) (wal_rows fs db_path t))),
     after st (wal_messages fs db_path t)).
Proof.
  destruct st as [[conn pend] out]. unfold connected, after. simpl.
  intros -> Ht Hpk Hmain Hwal.
  unfold get_table_contents_with_wal, try_except. io_step.
  rewrite run_pragma, Ht. cbn. rewrite table_info_names. cbn.
  rewrite run_pragma, Ht. cbn. rewrite table_info_pk_names. cbn.
  pose proof (run_select db t tbl limit Ht) as Hsel.
  destruct (limit_truthy limit); cbn; rewrite Hsel; cbn.
  all: rewrite get_wal_data_spec; cbn.
  all: destruct (pk_column_names tbl) as [| p ps] eqn:Hnames; [ done | ].
  all: rewrite <- Hnames, pk_indices_spec; cbn.
  all: rewrite main_keys_loop_spec by done; cbn.
  all: rewrite wal_loop_spec by done; cbn.
  all: unfold wal_only, keys_of.
  all: rewrite !(left_id_L ∅ (∪)). all: done.
Qed.

Lemma get_table_contents_with_wal_no_pk (fs : gmap string file)
  (t db_path : string) (limit : option Z) (db : gmap string table)
  (tbl : table) (st : state) :
  connected db st ->
  db !! t = Some tbl ->
  pk_column_names tbl = [] ->
  get_table_contents_with_wal fs t db_path limit st
  = (Return (column_names tbl,
             main_rows limit tbl ++ wal_rows fs db_path t,
             set_range (Z.of_nat (length (main_rows limit tbl)))
                       (Z.of_nat (length (main_rows limit tbl))
                        + Z.of_nat (length (wal_rows fs db_path t)))),
     after st (wal_messages fs db_path t)).
Proof.
  destruct st as [[conn pend] out]. unfold connected, after. simpl.
  intros -> Ht Hpk.
  unfold get_table_contents_with_wal, try_except. io_step.
  rewrite run_pragma, Ht. cbn. rewrite table_info_names. cbn.
  rewrite run_pragma, Ht. cbn. rewrite table_info_pk_names. cbn.
  pose proof (run_select db t tbl limit Ht) as Hsel.
  destruct (limit_truthy limit); cbn; rewrite Hsel; cbn.
  all: rewrite get_wal_data_spec; cbn.
  all: rewrite Hpk.
  all: rewrite length_app, Nat2Z.inj_add.
  all: repeat f_equal; lia.
Qed.

Lemma keys_of_elem (tbl : table) (l : list row) (k : key) :
  k ∈ keys_of tbl l <-> exists r, r ∈ l /\ pk_tuple tbl r = k.
Proof.
  unfold keys_of. rewrite elem_of_list_to_set, list_elem_of_fmap.
  split; intros (r & H1 & H2); exists r; split; done.
Qed.

Lemma wal_only_elem (tbl : table) (main wal : list row) (r : row) :
  r ∈ wal_only tbl main wal
  <-> r ∈ wal /\ forall m, m ∈ main -> pk_tuple tbl m <> pk_tuple tbl r.
Proof.
  unfold wal_only. rewrite list_elem_of_filter, keys_of_elem.
  split; intros [H1 H2]; split; try done.
  - intros m Hm Heq. apply H1. by exists m.
  - intros (m & Hm & Heq). by apply (H2 m).
Qed.

Lemma wal_only_all_new (tbl : table) (main wal : list row) :
  (forall r, r ∈ wal -> pk_tuple tbl r ∉ keys_of tbl main) ->
  wal_only tbl main wal = wal.
Proof.
  unfold wal_only. induction wal as [| r wal IH]; intros Hnew; [ done | ].
  rewrite filter_cons_True by (apply Hnew; set_solver).
  rewrite IH by (intros; apply Hnew; set_solver). done.
Qed.

Lemma keys_of_take (tbl : table) (n : nat) (l : list row) :
  keys_of tbl (take n l) ⊆ keys_of tbl l.
Proof.
  intros k. rewrite !keys_of_elem. intros (r & Hr & Hk).
  exists r. split; [ | done ]. eapply subseteq_take, Hr.
Qed.

Lemma rows_with_key_app (tbl : table) (k : key) (l1 l2 : list row) :
  rows_with_key tbl k (l1 ++ l2)
  = rows_with_key tbl k l1 ++ rows_with_key tbl k l2.
Proof. unfold rows_with_key. apply filter_app. Qed.

Lemma rows_with_key_absent (tbl : table) (k : key) (l : list row) :
  k ∉ keys_of tbl l -> rows_with_key tbl k l = [].
Proof.
  intros Hk. unfold rows_with_key. induction l as [| r l IH]; [ done | ].
  rewrite filter_cons_False.
  - apply IH. intros H. apply Hk. apply keys_of_elem in H as (r' & Hr' & Heq).
    apply keys_of_elem. exists r'. split; [ set_solver | done ].
  - intros Heq. apply Hk, keys_of_elem. exists r. split; [ set_solver | done ].
Qed.

Lemma rows_with_key_wal_only (tbl : table) (k : key) (main wal : list row) :
  k ∉ keys_of tbl main ->
  rows_with_key tbl k (wal_only tbl main wal) = rows_with_key tbl k wal.
Proof.
  intros Hk. unfold rows_with_key, wal_only.
  induction wal as [| r wal IH]; [ done | ].
  destruct (decide (pk_tuple tbl r = k)) as [Heq | Hne].
  - rewrite (filter_cons_True _ r wal) by (rewrite Heq; done).
    rewrite !filter_cons_True by done. by rewrite IH.
  - rewrite (filter_cons_False (fun r => pk_tuple tbl r = k) r wal) by done.
    destruct (decide (pk_tuple tbl r ∉ keys_of tbl main)).
    + rewrite (filter_cons_True _ r wal) by done.
      rewrite filter_cons_False by done. done.
    + rewrite (filter_cons_False _ r wal) by done. done.
Qed.

Lemma rows_with_key_present (tbl : table) (k : key) (l : list row) :
  k ∈ keys_of tbl l -> (1 <= length (rows_with_key tbl k l))%nat.
Proof.
  intros (r & Hr & Heq)%keys_of_elem.
  assert (Hin : r ∈ rows_with_key tbl k l)
    by (unfold rows_with_key; apply list_elem_of_filter; done).
  destruct (rows_with_key tbl k l); [ set_solver | simpl; lia ].
Qed.

Lemma rows_with_key_NoDup (tbl : table) (k : key) (l : list row) :
  NoDup (pk_tuple tbl <$> l) -> (length (rows_with_key tbl k l) <= 1)%nat.
Proof.
  unfold rows_with_key. induction l as [| r l IH]; intros Hnd; [ simpl; lia | ].
  rewrite fmap_cons in Hnd. apply NoDup_cons in Hnd as [Hr Hnd].
  destruct (decide (pk_tuple tbl r = k)) as [Heq | Hne].
  - rewrite filter_cons_True by done.
    fold (rows_with_key tbl k l). rewrite rows_with_key_absent; [ simpl; lia | ].
    unfold keys_of. rewrite elem_of_list_to_set. by rewrite <- Heq.
  - rewrite filter_cons_False by done. by apply IH.
Qed.

Lemma set_range_elem (a b : Z) (k : key) :
  k ∈ set_range a b <-> exists i, k = KeyIndex i /\ a <= i < b.
Proof.
  unfold set_range. rewrite elem_of_list_to_set, list_elem_of_fmap.
  split; intros (i & Hk & Hi); exists i; split; try done.
  - apply elem_of_seqZ in Hi. lia.
  - apply elem_of_seqZ. lia.
Qed.

End DatabaseUtilsLemmas.

(** * The claims about [get_table_contents_with_wal] *)

Section DatabaseUtilsClaims.
Import Py Sqlite3 DatabaseUtils Reading Samples.











End DatabaseUtilsClaims.

(** * Further properties of [time_utils.py] *)

(** ** Binary64 division and rounding between two numbers of a grid

    Rounding to nearest keeps a value between any two numbers of a grid
    that is at least as coarse as the grid of the result; this is what
    keeps the quotient of [unix_micro_to_jst] in its second. *)

Section FloatBrackets.
Import Py PyFloat Datetime TimeUtils.

(** One step of the right shift halves the mantissa and remembers what
    fell off. *)
Lemma shr_1_spec (m : Z) (r s : bool) :
  0 <= m ->
  shr_1 (Build_shr_record m r s)
  = Build_shr_record (m / 2) (Z.odd m) (r || s).
Proof.
  intros Hm. destruct m as [| p | p]; [ reflexivity | | lia ].
  destruct p as [p | p |]; unfold shr_1.
  - f_equal. rewrite Pos2Z.inj_xI.
    rewrite (Z.mul_comm 2), Z.div_add_l by lia. reflexivity.
  - f_equal. rewrite Pos2Z.inj_xO.
    rewrite (Z.mul_comm 2), Z.div_mul by lia. reflexivity.
  - reflexivity.
Qed.

Lemma shr_iter_spec (p : Z) (n : nat) :
  0 <= p ->
  exists r s : bool,
    Nat.iter n shr_1 (Build_shr_record p false false)
    = Build_shr_record (p / 2 ^ Z.of_nat n) r s
    /\ (p mod 2 ^ Z.of_nat n = 0 -> r = false /\ s = false).
Proof.
  intros Hp. induction n as [| n (r & s & IH & Hex)].
  - exists false, false. simpl. rewrite Z.div_1_r. done.
  - rewrite Nat.iter_succ, IH.
    assert (Hpow : 0 < 2 ^ Z.of_nat n) by (apply Z.pow_pos_nonneg; lia).
    rewrite shr_1_spec by (apply Z.div_pos; lia).
    exists (Z.odd (p / 2 ^ Z.of_nat n)), (r || s). split.
    + f_equal. rewrite Nat2Z.inj_succ, Z.pow_succ_r by lia.
      rewrite Z.div_div by lia. f_equal. lia.
    + rewrite Nat2Z.inj_succ, Z.pow_succ_r by lia. intros Hmod.
      assert (Hdiv : p = 2 * 2 ^ Z.of_nat n * (p / (2 * 2 ^ Z.of_nat n))).
      { pose proof (Z.div_mod p (2 * 2 ^ Z.of_nat n)). lia. }
      set (c := p / (2 * 2 ^ Z.of_nat n)) in *.
      assert (Hq : p / 2 ^ Z.of_nat n = 2 * c).
      { rewrite Hdiv at 1.
        replace (2 * 2 ^ Z.of_nat n * c) with (2 * c * 2 ^ Z.of_nat n) by lia.
        rewrite Z.div_mul by lia. reflexivity. }
      assert (Hm : p mod 2 ^ Z.of_nat n = 0).
      { rewrite Hdiv.
        replace (2 * 2 ^ Z.of_nat n * c) with (2 * c * 2 ^ Z.of_nat n) by lia.
        apply Z.mod_mul. lia. }
      destruct (Hex Hm) as [-> ->]. split; [ | reflexivity ].
      rewrite Hq, Z.odd_mul. reflexivity.
Qed.

Lemma round_nearest_even_bracket (m : Z) (r s : bool) :
  let m' := round_nearest_even m (loc_of_shr_record (Build_shr_record m r s)) in
  m <= m' <= m + 1 /\ (r = false -> s = false -> m' = m).
Proof.
  destruct r, s; simpl; try destruct (Z.even m); lia.
Qed.

Lemma digits2_pos_range (q : positive) :
  2 ^ (Zpos (digits2_pos q) - 1) <= Zpos q < 2 ^ Zpos (digits2_pos q).
Proof.
  rewrite digits2_pos_size.
  pose proof (Pos.size_le q) as Hle. pose proof (Pos.size_gt q) as Hgt.
  apply Pos2Z.pos_le_pos in Hle. apply Pos2Z.pos_lt_pos in Hgt.
  rewrite Pos2Z.inj_pow in Hle, Hgt.
  change (Zpos q~0) with (2 * Zpos q) in Hle.
  replace (Zpos (Pos.size q)) with (Z.succ (Zpos (Pos.size q) - 1)) in Hle at 1 by lia.
  rewrite Z.pow_succ_r in Hle by lia. lia.
Qed.

Lemma digits2_pos_unique (q : positive) (k : Z) :
  2 ^ (k - 1) <= Zpos q < 2 ^ k -> Zpos (digits2_pos q) = k.
Proof.
  intros [Hlo Hhi]. pose proof (digits2_pos_range q) as [Hl Hh].
  set (d := Zpos (digits2_pos q)) in *.
  assert (Hd : 1 <= d) by (unfold d; lia).
  destruct (Z.lt_trichotomy d k) as [Hlt | [Heq | Hgt]]; [ exfalso | done | exfalso ].
  - assert (2 ^ d <= 2 ^ (k - 1)) by (apply Z.pow_le_mono_r; lia). lia.
  - destruct (Z.le_gt_cases k 0).
    + assert (2 ^ k <= 2 ^ 0) by (apply Z.pow_le_mono_r; lia).
      change (2 ^ 0) with 1 in *. lia.
    + assert (2 ^ k <= 2 ^ (d - 1)) by (apply Z.pow_le_mono_r; lia). lia.
Qed.

Lemma fexp_normal (x : Z) : -1074 <= x - 53 -> fexp prec emax x = x - 53.
Proof. unfold fexp, emin, prec, emax. lia. Qed.

Lemma pow2_split (a b : Z) : 0 <= a -> 0 <= b -> 2 ^ (a + b) = 2 ^ a * 2 ^ b.
Proof. intros. apply Z.pow_add_r; lia. Qed.

(** Rounding to nearest keeps a number between any two numbers of the
    target grid that enclose it. *)
Lemma binary_round_bracket (sx : bool) (p : positive) (e c lo hi : Z) :
  let E := Zpos (digits2_pos p) + e - 53 in
  -1074 <= E -> E + 1 <= 971 ->
  e <= c -> E + 1 <= c ->
  lo * 2 ^ (c - e) <= Zpos p <= hi * 2 ^ (c - e) ->
  exists (mz : positive) (ez : Z),
    binary_round prec emax sx p e = S754_finite sx mz ez
    /\ E <= ez <= c
    /\ lo * 2 ^ (c - ez) <= Zpos mz <= hi * 2 ^ (c - ez).
Proof.
  intros E Hmin Hmax Hec HEc Hp.
  set (d := Zpos (digits2_pos p)) in *.
  assert (HfE : fexp prec emax (d + e) = E) by (apply fexp_normal; unfold E; lia).
  unfold binary_round. fold d. rewrite HfE. unfold shl_align.
  destruct (E - e) as [| n | n] eqn:Hn.
  - (* the mantissa has exactly 53 bits *)
    exists p, e. split; [ | split; [ lia | exact Hp ] ].
    apply binary_round_aux_canonical.
    + fold d. rewrite HfE. lia.
    + unfold emax, prec. lia.
  - (* bits are shifted out *)
    assert (Hn' : E = e + Zpos n) by lia.
    unfold binary_round_aux, shr_fexp. simpl Zdigits2. fold d. rewrite HfE.
    replace (E - e) with (Zpos n) by lia.
    unfold shr. rewrite iter_pos_nat. simpl shr_record_of_loc.
    destruct (shr_iter_spec (Zpos p) (Pos.to_nat n)) as (r & s & -> & Hex);
      [ lia | ].
    rewrite positive_nat_Z in *.
    set (m1 := Zpos p / 2 ^ Zpos n) in *.
    pose proof (round_nearest_even_bracket m1 r s) as [Hm2 Hexact].
    cbv zeta in Hm2, Hexact. cbn [shr_m].
    set (m2 := round_nearest_even m1
                 (loc_of_shr_record (Build_shr_record m1 r s))) in *.
    pose proof (digits2_pos_range p) as Hd. fold d in Hd.
    assert (Hpown : 0 < 2 ^ Zpos n) by (apply Z.pow_pos_nonneg; lia).
    assert (Hd53 : d - 1 = 52 + Zpos n) by (unfold E in Hn'; lia).
    assert (Hm1 : 2 ^ 52 <= m1 < 2 ^ 53).
    { unfold m1. split.
      - apply Z.div_le_lower_bound; [ lia | ].
        rewrite Z.mul_comm, <- pow2_split by lia. rewrite <- Hd53. lia.
      - apply Z.div_lt_upper_bound; [ lia | ].
        rewrite <- pow2_split by lia.
        replace (Zpos n + 53) with d by lia. lia. }
    pose proof (Z.div_mod (Zpos p) (2 ^ Zpos n) ltac:(lia)) as Hdm.
    pose proof (Z.mod_pos_bound (Zpos p) (2 ^ Zpos n) ltac:(lia)) as Hmb.
    fold m1 in Hdm.
    (* the bounds, in units of the grid *)
    assert (Hce : 2 ^ (c - e) = 2 ^ (c - E) * 2 ^ Zpos n).
    { rewrite <- pow2_split by lia. f_equal. lia. }
    assert (HpowcE : 0 < 2 ^ (c - E)) by (apply Z.pow_pos_nonneg; lia).
    assert (Hlo : lo * 2 ^ (c - E) <= m2).
    { assert (lo * 2 ^ (c - E) <= m1); [ | lia ].
      apply Z.div_le_lower_bound; [ lia | ]. rewrite Hce in Hp. lia. }
    assert (Hhi : m2 <= hi * 2 ^ (c - E)).
    { destruct (Z.eq_dec (Zpos p mod 2 ^ Zpos n) 0) as [Hz | Hnz].
      - destruct (Hex Hz) as [-> ->]. rewrite Hexact by done.
        rewrite Hce in Hp. nia.
      - assert (m1 < hi * 2 ^ (c - E)); [ | lia ].
        rewrite Hce in Hp. nia. }
    clearbody m2. clear Hexact Hex.
    destruct m2 as [| q | q]; [ lia | | lia ].
    destruct (Z.lt_ge_cases (Zpos q) (2 ^ 53)) as [Hlt | Hge].
    + (* no carry *)
      assert (Hdig : Zpos (digits2_pos q) = 53)
        by (apply digits2_pos_unique; change (53 - 1) with 52; lia).
      change (Zdigits2 (Zpos q)) with (Zpos (digits2_pos q)). rewrite Hdig.
      replace (e + Zpos n) with E by lia.
      rewrite fexp_normal by lia. replace (53 + E - 53 - E) with 0 by lia.
      cbn [shr shr_m fst snd].
      destruct (Z.leb_spec E (emax - prec)) as [_ | Hbad];
        [ | unfold emax, prec in Hbad; lia ].
      exists q, E. split; [ reflexivity | split; [ lia | lia ] ].
    + (* the rounded mantissa is 2^53 and is halved *)
      assert (Heq : Zpos q = 2 ^ 53) by lia.
      assert (Hm2v : q = (2 ^ 53)%positive) by lia. subst q.
      change (Zdigits2 (Zpos (2 ^ 53))) with 54.
      replace (e + Zpos n) with E by lia.
      rewrite fexp_normal by lia. replace (54 + E - 53 - E) with 1 by lia.
      cbn [shr SpecFloat.iter_pos shr_1 shr_m fst snd].
      destruct (Z.leb_spec (E + 1) (emax - prec)) as [_ | Hbad];
        [ | unfold emax, prec in Hbad; lia ].
      exists (2 ^ 52)%positive, (E + 1). split; [ reflexivity | split; [ lia | ] ].
      assert (Hc1 : 2 ^ (c - E) = 2 * 2 ^ (c - (E + 1))).
      { replace (c - E) with (Z.succ (c - (E + 1))) by lia.
        apply Z.pow_succ_r. lia. }
      rewrite Hc1 in Hlo, Hhi. change (Zpos (2 ^ 53)) with (2 * 2 ^ 52) in *.
      change (Zpos (2 ^ 52)) with (2 ^ 52). lia.
  - (* the mantissa is shifted left: nothing is lost *)
    assert (Hn' : e = E + Zpos n) by lia.
    exists (Pos.iter xO p n), E. split; [ | split; [ lia | ] ].
    + apply binary_round_aux_canonical.
      * rewrite pos_iter_nat, digits2_pos_iter_xO, positive_nat_Z. fold d.
        replace (d + Zpos n + E) with (d + e) by lia. exact HfE.
      * unfold emax, prec. lia.
    + rewrite pos_iter_nat, Zpos_iter_xO, positive_nat_Z.
      assert (Hce : 2 ^ (c - E) = 2 ^ (c - e) * 2 ^ Zpos n).
      { rewrite <- pow2_split by lia. f_equal. lia. }
      rewrite Hce.
      assert (0 < 2 ^ Zpos n) by (apply Z.pow_pos_nonneg; lia). nia.
Qed.

(** The quotient of an integer by 1000, for a magnitude below 2^38:
    the float lies between any two multiples of 2^-14 that enclose the
    exact quotient. *)
Lemma int_truediv_1000_bracket (a lo hi : Z) :
  a <> 0 -> Z.abs a < 1000 * 2 ^ 38 ->
  lo * 1000 <= Z.abs a * 2 ^ 14 <= hi * 1000 ->
  exists (mz : positive) (ez : Z),
    int_truediv a 1000 = Return (S754_finite (a <? 0) mz ez)
    /\ -200 <= ez <= -14
    /\ lo * 2 ^ (-14 - ez) <= Zpos mz <= hi * 2 ^ (-14 - ez).
Proof.
  intros Ha Hsmall Hb. unfold int_truediv.
  change (1000 =? 0) with false. change (1000 <? 0) with false.
  rewrite xorb_false_r. change (Z.abs 1000) with 1000.
  change (Z.log2 1000) with 9. cbv iota.
  set (A := Z.abs a) in *.
  assert (HA : 0 < A) by (unfold A; lia).
  destruct (Z.eqb_spec A 0) as [| _]; [ lia | ].
  pose proof (Z.log2_spec A HA) as [HL1 HL2].
  pose proof (Z.log2_nonneg A) as HL0.
  set (L := Z.log2 A) in *.
  assert (HL : L <= 47).
  { destruct (Z.le_gt_cases L 47) as [| Hgt]; [ done | exfalso ].
    assert (2 ^ 48 <= 2 ^ L) by (apply Z.pow_le_mono_r; lia).
    change (2 ^ 48) with (256 * 2 ^ 40) in *. change (2 ^ 38) with 274877906944 in *.
    change (2 ^ 40) with 1099511627776 in *. lia. }
  replace (Z.max 0 (9 - L + 56)) with (65 - L) by lia.
  set (k := 65 - L).
  assert (Hk : 18 <= k <= 65) by (unfold k; lia).
  set (K := 2 ^ k).
  assert (HK : 0 < K) by (apply Z.pow_pos_nonneg; lia).
  assert (HK14 : K = 2 ^ 14 * 2 ^ (k - 14)).
  { unfold K. rewrite <- pow2_split by lia. f_equal. lia. }
  assert (HKL : 2 ^ L * K = 2 ^ 65).
  { unfold K. rewrite <- pow2_split by lia. f_equal. unfold k. lia. }
  set (K' := 2 ^ (k - 14)) in *.
  assert (HK' : 0 < K') by (apply Z.pow_pos_nonneg; lia).
  set (q := A * K / 1000).
  pose proof (Z.div_mod (A * K) 1000 ltac:(lia)) as Hdm.
  pose proof (Z.mod_pos_bound (A * K) 1000 ltac:(lia)) as Hmb.
  fold q in Hdm.
  set (sticky := if A * K mod 1000 =? 0 then 0 else 1).
  assert (Hst : 0 <= sticky <= 1 /\ (A * K mod 1000 = 0 -> sticky = 0)).
  { unfold sticky. destruct (Z.eqb_spec (A * K mod 1000) 0); lia. }
  clearbody sticky.
  assert (Hq : 2 ^ 55 <= q).
  { unfold q. apply Z.div_le_lower_bound; [ lia | ].
    assert (2 ^ 65 <= A * K) by (rewrite <- HKL; nia).
    change (2 ^ 65) with (1024 * 2 ^ 55) in *. lia. }
  assert (Hq2 : q < 2 ^ 38 * K).
  { unfold q. apply Z.div_lt_upper_bound; [ lia | ]. nia. }
  assert (HM : 0 < 2 * q + sticky)
    by (change (2 ^ 55) with 36028797018963968 in *; lia).
  destruct (2 * q + sticky) as [| Mp | Mp] eqn:HMp; [ lia | | lia ].
  unfold round_to_float, binary_normalize.
  assert (Hcond : cond_Zopp (a <? 0) (Zpos Mp)
                  = if a <? 0 then Zneg Mp else Zpos Mp)
    by (destruct (a <? 0); reflexivity).
  rewrite Hcond. clear Hcond.
  pose proof (digits2_pos_range Mp) as Hd.
  set (d := Zpos (digits2_pos Mp)) in *.
  assert (Hd1 : 57 <= d).
  { destruct (Z.le_gt_cases 57 d) as [| Hlt]; [ done | exfalso ].
    assert (2 ^ d <= 2 ^ 56) by (apply Z.pow_le_mono_r; unfold d; lia).
    change (2 ^ 56) with (2 * 2 ^ 55) in *. lia. }
  assert (Hd2 : d <= 39 + k).
  { destruct (Z.le_gt_cases d (39 + k)) as [| Hgt]; [ done | exfalso ].
    assert (2 ^ (39 + k) <= 2 ^ (d - 1)) by (apply Z.pow_le_mono_r; lia).
    rewrite pow2_split in H by lia. fold K in H.
    change (2 ^ 39) with (2 * 2 ^ 38) in H. lia. }
  destruct (binary_round_bracket (a <? 0) Mp (- k - 1) (-14) lo hi)
    as (mz & ez & Hround & Hez & Hbr).
  - fold d. lia.
  - fold d. lia.
  - lia.
  - fold d. lia.
  - replace (-14 - (- k - 1)) with (Z.succ (k - 14)) by lia.
    rewrite Z.pow_succ_r by lia. fold K'.
    rewrite <- HMp.
    destruct Hst as [Hst0 Hst1].
    assert (HAK : A * K = A * 2 ^ 14 * K') by (rewrite HK14; ring).
    assert (Hlo' : lo * 1000 * K' <= A * K)
      by (rewrite HAK; apply Z.mul_le_mono_nonneg_r; lia).
    assert (Hhi' : A * K <= hi * 1000 * K')
      by (rewrite HAK; apply Z.mul_le_mono_nonneg_r; lia).
    split.
    + assert (lo * K' <= q); [ | lia ].
      unfold q. apply Z.div_le_lower_bound; lia.
    + destruct (Z.eq_dec (A * K mod 1000) 0) as [Hz | Hnz].
      * rewrite (Hst1 Hz). assert (q <= hi * K'); [ | lia ]. lia.
      * assert (q < hi * K'); [ | lia ]. lia.
  - exists mz, ez. fold d in Hez.
    destruct (a <? 0); rewrite Hround; (split; [ reflexivity | split; [ lia | exact Hbr ] ]).
Qed.

(** Rounding to an integer keeps a number between any two integers that
    enclose it. *)
Lemma dyadic_round_half_even_bracket (m e L H : Z) :
  e <= 0 ->
  L * 2 ^ (- e) <= m <= H * 2 ^ (- e) ->
  L <= dyadic_round_half_even m e <= H.
Proof.
  intros He Hm. unfold dyadic_round_half_even.
  destruct (Z.leb_spec 0 e) as [H0 | Hneg].
  - replace e with 0 in * by lia. change (2 ^ (- 0)) with 1 in Hm.
    change (2 ^ 0) with 1. lia.
  - set (d := 2 ^ (- e)) in *.
    assert (Hd : 0 < d) by (apply Z.pow_pos_nonneg; lia).
    pose proof (Z.div_mod m d ltac:(lia)) as Hdm.
    pose proof (Z.mod_pos_bound m d Hd) as Hmb.
    assert (Hq1 : L <= m / d) by (apply Z.div_le_lower_bound; lia).
    destruct (Z.eq_dec (m mod d) 0) as [Hz | Hnz].
    + rewrite Hz. change (2 * 0) with 0.
      destruct (Z.compare_spec 0 d); [ lia | | lia ].
      split; [ lia | ]. rewrite Hz in Hdm. nia.
    + assert (Hq2 : m / d < H) by nia.
      destruct (2 * (m mod d) ?= d); [ destruct (Z.even (m / d)) | | ]; lia.
Qed.

(** A float with seconds [t] and a fraction between [flo] and [fhi]
    sixteen-thousandths holds [t] seconds and a number of microseconds
    between any two integers that enclose the fraction. *)
Lemma seconds_to_microseconds_bracket (sx : bool) (mz : positive)
  (ez t flo fhi nlo nhi : Z) :
  -200 <= ez <= -14 ->
  0 <= t -> 0 <= flo -> fhi < 2 ^ 14 ->
  (t * 2 ^ 14 + flo) * 2 ^ (-14 - ez) <= Zpos mz
    <= (t * 2 ^ 14 + fhi) * 2 ^ (-14 - ez) ->
  nlo * 2 ^ 14 <= flo * 1000000 -> fhi * 1000000 <= nhi * 2 ^ 14 ->
  exists n : Z,
    nlo <= n <= nhi
    /\ seconds_to_microseconds (S754_finite sx mz ez)
       = Some (cond_Zopp sx (t * 1000000 + n)).
Proof.
  intros Hez Ht Hflo Hfhi Hmz Hnlo Hnhi.
  set (D' := 2 ^ (-14 - ez)) in *.
  assert (HD' : 0 < D') by (apply Z.pow_pos_nonneg; lia).
  assert (HD : 2 ^ (- ez) = 2 ^ 14 * D').
  { unfold D'. rewrite <- pow2_split by lia. f_equal. lia. }
  change (2 ^ 14) with 16384 in *.
  set (D := 2 ^ (- ez)) in *.
  assert (Hdiv : Zpos mz / D = t).
  { symmetry. apply (Z.div_unique_pos _ _ _ (Zpos mz - t * D)); nia. }
  pose proof (Z.div_mod (Zpos mz) D ltac:(lia)) as Hdm.
  rewrite Hdiv in Hdm.
  set (fr0 := Zpos mz mod D) in *.
  assert (Hfr : flo * D' <= fr0 <= fhi * D') by nia.
  unfold seconds_to_microseconds.
  cbn [to_dyadic]. unfold dyadic_modf.
  destruct (Z.leb_spec 0 ez) as [| _]; [ lia | ].
  fold D.
  assert (Hquot : Z.quot (cond_Zopp sx (Zpos mz)) D = cond_Zopp sx t).
  { destruct sx; cbn [cond_Zopp].
    - rewrite Z.quot_opp_l by lia. rewrite Z.quot_div_nonneg by lia. lia.
    - rewrite Z.quot_div_nonneg by lia. lia. }
  assert (Hrem : Z.rem (cond_Zopp sx (Zpos mz)) D = cond_Zopp sx fr0).
  { destruct sx; cbn [cond_Zopp].
    - rewrite Z.rem_opp_l by lia. rewrite Z.rem_mod_nonneg by lia. reflexivity.
    - rewrite Z.rem_mod_nonneg by lia. reflexivity. }
  rewrite Hquot, Hrem.
  destruct (Z.eq_dec fr0 0) as [Hz | Hnz].
  - (* a whole number of seconds *)
    rewrite Hz.
    replace (cond_Zopp sx 0 * 1000000) with 0 by (destruct sx; reflexivity).
    change (round_to_float 0 ez) with (S754_zero false). cbn [to_dyadic].
    change (dyadic_round_half_even 0 0) with 0.
    exists 0. split; [ nia | ]. f_equal. destruct sx; cbn [cond_Zopp]; lia.
  - (* a fraction *)
    assert (HP : 0 < fr0 * 1000000) by nia.
    destruct (fr0 * 1000000) as [| Pp | Pp] eqn:HPp; [ lia | | lia ].
    assert (Hprod : cond_Zopp sx fr0 * 1000000 = cond_Zopp sx (Zpos Pp)).
    { rewrite <- HPp. destruct sx; cbn [cond_Zopp]; lia. }
    rewrite Hprod.
    assert (Hnorm : round_to_float (cond_Zopp sx (Zpos Pp)) ez
                    = binary_round prec emax sx Pp ez)
      by (destruct sx; reflexivity).
    rewrite Hnorm.
    pose proof (digits2_pos_range Pp) as Hd.
    set (d := Zpos (digits2_pos Pp)) in *.
    assert (Hd1 : 1 <= d) by (unfold d; lia).
    assert (Hd2 : d <= 20 - ez).
    { destruct (Z.le_gt_cases d (20 - ez)) as [| Hgt]; [ done | exfalso ].
      assert (2 ^ (20 - ez) <= 2 ^ (d - 1)) by (apply Z.pow_le_mono_r; lia).
      replace (20 - ez) with (20 + - ez) in H by lia.
      rewrite pow2_split in H by lia. fold D in H.
      change (2 ^ 20) with 1048576 in H.
      pose proof (Z.mod_pos_bound (Zpos mz) D ltac:(lia)) as Hb. fold fr0 in Hb.
      nia. }
    destruct (binary_round_bracket sx Pp ez 0 nlo nhi)
      as (pmz & pez & Hround & Hpez & Hbr).
    + fold d. lia.
    + fold d. lia.
    + lia.
    + fold d. lia.
    + replace (0 - ez) with (- ez) by lia. fold D. rewrite HD, <- HPp.
      assert (nlo * 16384 * D' <= flo * 1000000 * D')
        by (apply Z.mul_le_mono_nonneg_r; lia).
      assert (fhi * 1000000 * D' <= nhi * 16384 * D')
        by (apply Z.mul_le_mono_nonneg_r; lia).
      lia.
    + rewrite Hround. cbn [to_dyadic].
      replace (0 - pez) with (- pez) in Hbr by lia.
      destruct sx; cbn [cond_Zopp].
      * pose proof (dyadic_round_half_even_bracket (Zneg pmz) pez (- nhi) (- nlo))
          as Hr.
        destruct Hr as [Hr1 Hr2]; [ lia | | ].
        { assert (0 < 2 ^ (- pez)) by (apply Z.pow_pos_nonneg; lia).
          change (Zneg pmz) with (- Zpos pmz). nia. }
        exists (- dyadic_round_half_even (Zneg pmz) pez).
        split; [ lia | ]. f_equal. change (- Zpos pmz) with (Zneg pmz). lia.
      * pose proof (dyadic_round_half_even_bracket (Zpos pmz) pez nlo nhi) as Hr.
        destruct Hr as [Hr1 Hr2]; [ lia | exact Hbr | ].
        exists (dyadic_round_half_even (Zpos pmz) pez).
        split; [ lia | ]. f_equal.
Qed.

(** The quotient of a 64-bit integer by 1000 lies between any two
    multiples of 4 that enclose the exact quotient. *)
Lemma int_truediv_1000_wide (a lo hi : Z) :
  a <> 0 -> Z.abs a <= 2 ^ 63 ->
  lo * 4 * 1000 <= Z.abs a <= hi * 4 * 1000 ->
  exists (mz : positive) (ez : Z),
    int_truediv a 1000 = Return (S754_finite (a <? 0) mz ez)
    /\ -200 <= ez <= 2
    /\ lo * 2 ^ (2 - ez) <= Zpos mz <= hi * 2 ^ (2 - ez).
Proof.
  intros Ha Hsmall Hb. unfold int_truediv.
  change (1000 =? 0) with false. change (1000 <? 0) with false.
  rewrite xorb_false_r. change (Z.abs 1000) with 1000.
  change (Z.log2 1000) with 9. cbv iota.
  set (A := Z.abs a) in *.
  assert (HA : 0 < A) by (unfold A; lia).
  destruct (Z.eqb_spec A 0) as [| _]; [ lia | ].
  pose proof (Z.log2_spec A HA) as [HL1 HL2].
  pose proof (Z.log2_nonneg A) as HL0.
  set (L := Z.log2 A) in *.
  assert (HL : L <= 63).
  { destruct (Z.le_gt_cases L 63) as [| Hgt]; [ done | exfalso ].
    assert (2 ^ 64 <= 2 ^ L) by (apply Z.pow_le_mono_r; lia).
    change (2 ^ 64) with (2 * 2 ^ 63) in *. lia. }
  replace (Z.max 0 (9 - L + 56)) with (65 - L) by lia.
  set (k := 65 - L).
  assert (Hk : 2 <= k <= 65) by (unfold k; lia).
  set (K := 2 ^ k).
  assert (HK : 0 < K) by (apply Z.pow_pos_nonneg; lia).
  assert (HKL : 2 ^ L * K = 2 ^ 65).
  { unfold K. rewrite <- pow2_split by lia. f_equal. unfold k. lia. }
  set (q := A * K / 1000).
  pose proof (Z.div_mod (A * K) 1000 ltac:(lia)) as Hdm.
  pose proof (Z.mod_pos_bound (A * K) 1000 ltac:(lia)) as Hmb.
  fold q in Hdm.
  set (sticky := if A * K mod 1000 =? 0 then 0 else 1).
  assert (Hst : 0 <= sticky <= 1 /\ (A * K mod 1000 = 0 -> sticky = 0)).
  { unfold sticky. destruct (Z.eqb_spec (A * K mod 1000) 0); lia. }
  clearbody sticky.
  assert (Hq : 2 ^ 55 <= q).
  { unfold q. apply Z.div_le_lower_bound; [ lia | ].
    assert (2 ^ 65 <= A * K) by (rewrite <- HKL; nia).
    change (2 ^ 65) with (1024 * 2 ^ 55) in *. lia. }
  assert (Hq2 : q < 2 ^ 54 * K).
  { unfold q. apply Z.div_lt_upper_bound; [ lia | ].
    change (2 ^ 63) with 9223372036854775808 in Hsmall.
    change (2 ^ 54) with 18014398509481984. nia. }
  assert (HM : 0 < 2 * q + sticky)
    by (change (2 ^ 55) with 36028797018963968 in *; lia).
  destruct (2 * q + sticky) as [| Mp | Mp] eqn:HMp; [ lia | | lia ].
  unfold round_to_float, binary_normalize.
  assert (Hcond : cond_Zopp (a <? 0) (Zpos Mp)
                  = if a <? 0 then Zneg Mp else Zpos Mp)
    by (destruct (a <? 0); reflexivity).
  rewrite Hcond. clear Hcond.
  pose proof (digits2_pos_range Mp) as Hd.
  set (d := Zpos (digits2_pos Mp)) in *.
  assert (Hd1 : 57 <= d).
  { destruct (Z.le_gt_cases 57 d) as [| Hlt]; [ done | exfalso ].
    assert (2 ^ d <= 2 ^ 56) by (apply Z.pow_le_mono_r; unfold d; lia).
    change (2 ^ 56) with (2 * 2 ^ 55) in *. lia. }
  assert (Hd2 : d <= 55 + k).
  { destruct (Z.le_gt_cases d (55 + k)) as [| Hgt]; [ done | exfalso ].
    assert (2 ^ (55 + k) <= 2 ^ (d - 1)) by (apply Z.pow_le_mono_r; lia).
    rewrite pow2_split in H by lia. fold K in H.
    change (2 ^ 55) with (2 * 2 ^ 54) in H. lia. }
  destruct (binary_round_bracket (a <? 0) Mp (- k - 1) 2 lo hi)
    as (mz & ez & Hround & Hez & Hbr).
  - fold d. lia.
  - fold d. lia.
  - lia.
  - fold d. lia.
  - replace (2 - (- k - 1)) with (3 + k) by lia.
    rewrite pow2_split by lia. fold K. change (2 ^ 3) with 8.
    rewrite <- HMp.
    destruct Hst as [Hst0 Hst1].
    assert (Hlo' : lo * 4 * K * 1000 <= A * K) by nia.
    assert (Hhi' : A * K <= hi * 4 * K * 1000) by nia.
    split.
    + assert (lo * 4 * K <= q); [ | lia ].
      unfold q. apply Z.div_le_lower_bound; lia.
    + destruct (Z.eq_dec (A * K mod 1000) 0) as [Hz | Hnz].
      * rewrite (Hst1 Hz). assert (q <= hi * 4 * K); [ | lia ]. lia.
      * assert (q < hi * 4 * K); [ | lia ]. lia.
  - exists mz, ez. fold d in Hez.
    destruct (a <? 0); rewrite Hround; (split; [ reflexivity | split; [ lia | exact Hbr ] ]).
Qed.

(** A float between two multiples of 4 holds a number of microseconds
    between the same bounds. *)
Lemma seconds_to_microseconds_wide (sx : bool) (mz : positive)
  (ez lo hi : Z) :
  -200 <= ez <= 2 ->
  0 <= lo ->
  lo * 2 ^ (2 - ez) <= Zpos mz <= hi * 2 ^ (2 - ez) ->
  exists us : Z,
    lo * 4 * 1000000 <= us <= hi * 4 * 1000000
    /\ seconds_to_microseconds (S754_finite sx mz ez)
       = Some (cond_Zopp sx us).
Proof.
  intros Hez Hlo Hmz.
  unfold seconds_to_microseconds. cbn [to_dyadic]. unfold dyadic_modf.
  destruct (Z.leb_spec 0 ez) as [Hpos | Hneg].
  - (* an integer *)
    replace (0 * 1000000) with 0 by lia.
    change (round_to_float 0 ez) with (S754_zero false). cbn [to_dyadic].
    change (dyadic_round_half_even 0 0) with 0.
    exists (Zpos mz * 2 ^ ez * 1000000). split.
    + assert (H4 : 2 ^ (2 - ez) * 2 ^ ez = 4).
      { rewrite <- pow2_split by lia. replace (2 - ez + ez) with 2 by lia.
        reflexivity. }
      assert (Hp : 0 < 2 ^ ez) by (apply Z.pow_pos_nonneg; lia).
      assert (Hl : lo * 2 ^ (2 - ez) * 2 ^ ez <= Zpos mz * 2 ^ ez)
        by (apply Z.mul_le_mono_nonneg_r; lia).
      assert (Hh : Zpos mz * 2 ^ ez <= hi * 2 ^ (2 - ez) * 2 ^ ez)
        by (apply Z.mul_le_mono_nonneg_r; lia).
      rewrite <- Z.mul_assoc, H4 in Hl, Hh. lia.
    + f_equal. destruct sx; cbn [cond_Zopp]; lia.
  - set (D := 2 ^ (- ez)) in *.
    assert (HD : 0 < D) by (apply Z.pow_pos_nonneg; lia).
    assert (HD4 : 2 ^ (2 - ez) = 4 * D).
    { unfold D. replace (2 - ez) with (2 + - ez) by lia.
      rewrite pow2_split by lia. reflexivity. }
    rewrite HD4 in Hmz.
    pose proof (Z.div_mod (Zpos mz) D ltac:(lia)) as Hdm.
    pose proof (Z.mod_pos_bound (Zpos mz) D HD) as Hmb.
    set (ip := Zpos mz / D) in *. set (fr0 := Zpos mz mod D) in *.
    assert (Hip1 : lo * 4 <= ip) by (apply Z.div_le_lower_bound; lia).
    assert (Hquot : Z.quot (cond_Zopp sx (Zpos mz)) D = cond_Zopp sx ip).
    { destruct sx; cbn [cond_Zopp].
      - rewrite Z.quot_opp_l by lia. rewrite Z.quot_div_nonneg by lia. done.
      - rewrite Z.quot_div_nonneg by lia. done. }
    assert (Hrem : Z.rem (cond_Zopp sx (Zpos mz)) D = cond_Zopp sx fr0).
    { destruct sx; cbn [cond_Zopp].
      - rewrite Z.rem_opp_l by lia. rewrite Z.rem_mod_nonneg by lia. done.
      - rewrite Z.rem_mod_nonneg by lia. done. }
    rewrite Hquot, Hrem.
    destruct (Z.eq_dec fr0 0) as [Hz | Hnz].
    + rewrite Hz.
      replace (cond_Zopp sx 0 * 1000000) with 0 by (destruct sx; reflexivity).
      change (round_to_float 0 ez) with (S754_zero false). cbn [to_dyadic].
      change (dyadic_round_half_even 0 0) with 0.
      exists (ip * 1000000). split; [ nia | ].
      f_equal. destruct sx; cbn [cond_Zopp]; lia.
    + assert (HP : 0 < fr0 * 1000000) by nia.
      destruct (fr0 * 1000000) as [| Pp | Pp] eqn:HPp; [ lia | | lia ].
      assert (Hprod : cond_Zopp sx fr0 * 1000000 = cond_Zopp sx (Zpos Pp)).
      { rewrite <- HPp. destruct sx; cbn [cond_Zopp]; lia. }
      rewrite Hprod.
      assert (Hnorm : round_to_float (cond_Zopp sx (Zpos Pp)) ez
                      = binary_round prec emax sx Pp ez)
        by (destruct sx; reflexivity).
      rewrite Hnorm.
      pose proof (digits2_pos_range Pp) as Hd.
      set (d := Zpos (digits2_pos Pp)) in *.
      assert (Hd1 : 1 <= d) by (unfold d; lia).
      assert (Hd2 : d <= 20 - ez).
      { destruct (Z.le_gt_cases d (20 - ez)) as [| Hgt]; [ done | exfalso ].
        assert (2 ^ (20 - ez) <= 2 ^ (d - 1)) by (apply Z.pow_le_mono_r; lia).
        replace (20 - ez) with (20 + - ez) in H by lia.
        rewrite pow2_split in H by lia. fold D in H.
        change (2 ^ 20) with 1048576 in H. nia. }
      destruct (binary_round_bracket sx Pp ez 0 0 1000000)
        as (pmz & pez & Hround & Hpez & Hbr).
      * fold d. lia.
      * fold d. lia.
      * lia.
      * fold d. lia.
      * replace (0 - ez) with (- ez) by lia. fold D. rewrite <- HPp. nia.
      * rewrite Hround. cbn [to_dyadic].
        replace (0 - pez) with (- pez) in Hbr by lia.
        assert (Hp2 : 0 < 2 ^ (- pez)) by (apply Z.pow_pos_nonneg; lia).
        assert (Hip2 : ip < hi * 4) by nia.
        destruct sx; cbn [cond_Zopp].
        -- pose proof (dyadic_round_half_even_bracket (Zneg pmz) pez
                         (- 1000000) 0) as Hr.
           destruct Hr as [Hr1 Hr2]; [ lia | | ].
           { change (Zneg pmz) with (- Zpos pmz). nia. }
           exists (ip * 1000000 - dyadic_round_half_even (Zneg pmz) pez).
           split; [ lia | ]. f_equal.
           change (- Zpos pmz) with (Zneg pmz). lia.
        -- pose proof (dyadic_round_half_even_bracket (Zpos pmz) pez 0 1000000)
             as Hr.
           destruct Hr as [Hr1 Hr2]; [ lia | lia | ].
           exists (ip * 1000000 + dyadic_round_half_even (Zpos pmz) pez).
           split; [ lia | ]. f_equal.
Qed.

End FloatBrackets.

(** ** [unix_micro_to_jst] on the integers of SQLite *)

Section UnixMicroToJst.
Import Py PyFloat Datetime TimeUtils.

(** Milliseconds divided by 1000 and read back as microseconds fall into
    the second that holds the milliseconds. *)
Lemma int_truediv_1000_second (ms : Z) :
  - 2 ^ 38 < ms / 1000 < 2 ^ 38 - 1 ->
  exists (x : float) (us : Z),
    int_truediv ms 1000 = Return x
    /\ seconds_to_microseconds x = Some us
    /\ us / 1000000 = ms / 1000.
Proof.
  intros Hs.
  pose proof (Z.div_mod ms 1000 ltac:(lia)) as Hdm.
  pose proof (Z.mod_pos_bound ms 1000 ltac:(lia)) as Hmb.
  set (s := ms / 1000) in *. set (r := ms mod 1000) in *.
  change (2 ^ 38) with 274877906944 in Hs.
  destruct (Z.eq_dec r 0) as [Hr0 | Hr].
  - (* whole seconds *)
    destruct (int_truediv_multiple 1000 s) as (x & Hdiv & Hus).
    + lia.
    + change (2 ^ 53) with 9007199254740992. lia.
    + exists x, (s * 1000000). replace ms with (1000 * s) by lia.
      split; [ exact Hdiv | split; [ exact Hus | ] ].
      apply Z.div_mul. lia.
  - destruct (Z.lt_ge_cases ms 0) as [Hneg | Hpos].
    + (* before the epoch *)
      set (t := - s - 1).
      assert (Hsmall : Z.abs ms < 1000 * 2 ^ 38)
        by (change (2 ^ 38) with 274877906944; lia).
      assert (Hnz : ms <> 0) by lia.
      assert (Hq : (t * 2 ^ 14 + 16) * 1000 <= Z.abs ms * 2 ^ 14
                   <= (t * 2 ^ 14 + 16383) * 1000)
        by (change (2 ^ 14) with 16384; unfold t; lia).
      destruct (int_truediv_1000_bracket ms _ _ Hnz Hsmall Hq)
        as (mz & ez & Hdiv & Hez & Hbr).
      assert (Ht : 0 <= t) by (unfold t; lia).
      destruct (seconds_to_microseconds_bracket (ms <? 0) mz ez t 16 16383
                  976 999939 Hez Ht ltac:(lia) ltac:(change (2 ^ 14) with 16384; lia)
                  Hbr ltac:(change (2 ^ 14) with 16384; lia)
                  ltac:(change (2 ^ 14) with 16384; lia))
        as (n & Hn & Hus).
      exists (S754_finite (ms <? 0) mz ez), (cond_Zopp (ms <? 0) (t * 1000000 + n)).
      split; [ exact Hdiv | split; [ exact Hus | ] ].
      destruct (Z.ltb_spec ms 0); [ | lia ]. cbn [cond_Zopp].
      symmetry. apply (Z.div_unique_pos _ _ _ (1000000 - n)); unfold t; lia.
    + (* after the epoch *)
      assert (Hsmall : Z.abs ms < 1000 * 2 ^ 38)
        by (change (2 ^ 38) with 274877906944; lia).
      assert (Hnz : ms <> 0) by lia.
      assert (Hq : (s * 2 ^ 14 + 0) * 1000 <= Z.abs ms * 2 ^ 14
                   <= (s * 2 ^ 14 + 16383) * 1000)
        by (change (2 ^ 14) with 16384; lia).
      destruct (int_truediv_1000_bracket ms _ _ Hnz Hsmall Hq)
        as (mz & ez & Hdiv & Hez & Hbr).
      assert (Ht : 0 <= s) by lia.
      destruct (seconds_to_microseconds_bracket (ms <? 0) mz ez s 0 16383
                  0 999939 Hez Ht ltac:(lia) ltac:(change (2 ^ 14) with 16384; lia)
                  Hbr ltac:(change (2 ^ 14) with 16384; lia)
                  ltac:(change (2 ^ 14) with 16384; lia))
        as (n & Hn & Hus).
      exists (S754_finite (ms <? 0) mz ez), (cond_Zopp (ms <? 0) (s * 1000000 + n)).
      split; [ exact Hdiv | split; [ exact Hus | ] ].
      destruct (Z.ltb_spec ms 0); [ lia | ]. cbn [cond_Zopp].
      symmetry. apply (Z.div_unique_pos _ _ _ n); lia.
Qed.

(** The offset of Asia/Tokyo changes at whole seconds only. *)
Lemma transition_lookup_second (table : list (Z * Z)) (current us : Z) :
  transition_lookup table current us
  = transition_lookup table current (us / 1000000 * 1000000).
Proof.
  revert current. induction table as [| [t off] rest IH]; intros current;
    [ reflexivity | ].
  cbn [transition_lookup]. rewrite <- IH.
  pose proof (Z.div_mod us 1000000 ltac:(lia)).
  pose proof (Z.mod_pos_bound us 1000000 ltac:(lia)).
  destruct (Z.leb_spec (t * 1000000) us),
    (Z.leb_spec (t * 1000000) (us / 1000000 * 1000000)); try reflexivity; lia.
Qed.

Lemma Asia_Tokyo_utcoffset_second (us : Z) :
  Asia_Tokyo_utcoffset us = Asia_Tokyo_utcoffset (us / 1000000 * 1000000).
Proof. apply transition_lookup_second. Qed.

(** The printed fields do not show the microseconds. *)
Lemma strftime_of_microseconds_second (us : Z) (zone : tzinfo) :
  strftime_Ymd_HMS (of_microseconds us zone)
  = strftime_Ymd_HMS (of_microseconds (us / 1000000 * 1000000) zone).
Proof.
  unfold of_microseconds. rewrite Z.div_mul by lia.
  destruct (civil_from_days (us / 1000000 / 86400)) as [[y m] d].
  reflexivity.
Qed.

Lemma fromtimestamp_utc_in_range (x : float) (us : Z) :
  seconds_to_microseconds x = Some us ->
  -62135596800000000 <= us <= 253402300799999999 ->
  fromtimestamp_utc x = Return (of_microseconds us pytz_UTC).
Proof.
  intros Hus Hr. unfold fromtimestamp_utc. rewrite Hus.
  assert (Hsecs : -62135596800 <= us / 1000000 <= 253402300799).
  { split.
    - apply Z.div_le_lower_bound; lia.
    - assert (us / 1000000 < 253402300800); [ | lia ].
      apply Z.div_lt_upper_bound; lia. }
  destruct (Z.leb_spec (- 2 ^ 63) (us / 1000000)); [ | lia ].
  destruct (Z.leb_spec (us / 1000000) (2 ^ 63)); [ | lia ].
  cbn [andb negb].
  pose proof (of_microseconds_year us pytz_UTC Hr) as Hy.
  unfold MINYEAR, MAXYEAR in *.
  destruct (Z.leb_spec (- 2 ^ 31) (year (of_microseconds us pytz_UTC) - 1900));
    [ | lia ].
  destruct (Z.ltb_spec (year (of_microseconds us pytz_UTC) - 1900) (2 ^ 31));
    [ | lia ].
  cbn [andb negb].
  destruct (Z.leb_spec 1 (year (of_microseconds us pytz_UTC))); [ | lia ].
  destruct (Z.leb_spec (year (of_microseconds us pytz_UTC)) 9999); [ | lia ].
  reflexivity.
Qed.

Lemma astimezone_Asia_Tokyo_in_range (us : Z) :
  -62135596800000000 <= us <= 253402268399999999 ->
  astimezone_Asia_Tokyo (of_microseconds us pytz_UTC)
  = Return (of_microseconds (us + Asia_Tokyo_utcoffset us * 1000000)
              pytz_Asia_Tokyo).
Proof.
  intros Hr. unfold astimezone_Asia_Tokyo. rewrite to_of_microseconds.
  destruct (Asia_Tokyo_utcoffset_bounds us) as [Hoff Hlate].
  rewrite year_check_pass; [ reflexivity | ].
  apply of_microseconds_year.
  destruct (Z.le_gt_cases (-577962000 * 1000000) us).
  - rewrite Hlate by lia. lia.
  - lia.
Qed.

Lemma unix_micro_to_jst_milliseconds (ms : Z) :
  -62135596800 <= ms / 1000 <= 253402268399 ->
  unix_micro_to_jst ms = Asia_Tokyo_clock (ms / 1000).
Proof.
  intros Hs. rewrite unix_micro_to_jst_unfold, Asia_Tokyo_clock_unfold.
  destruct (int_truediv_1000_second ms) as (x & us & Hdiv & Hus & Hsec).
  { change (2 ^ 38) with 274877906944. lia. }
  pose proof (Z.div_mod us 1000000 ltac:(lia)) as Hdm.
  pose proof (Z.mod_pos_bound us 1000000 ltac:(lia)) as Hmb.
  rewrite Hdiv, result_bind_return.
  rewrite (fromtimestamp_utc_in_range x us Hus), result_bind_return by lia.
  rewrite astimezone_Asia_Tokyo_in_range, result_bind_return by lia.
  rewrite strftime_of_microseconds_second.
  rewrite (Asia_Tokyo_utcoffset_second us).
  rewrite Z.div_add by lia. rewrite Hsec.
  unfold mret, result_ret. reflexivity.
Qed.

(** The first and the last days of a period of 400 years: the days
    before March of its first year, and the days from January of the
    year that ends it. *)
Lemma civil_one_period_edges (doe : Z) :
  0 <= doe < 146097 ->
  (doe <= 305 -> (civil_from_days (doe - 719468)).1.1 = 0)
  /\ (146037 <= doe -> (civil_from_days (doe - 719468)).1.1 = 400).
Proof.
  intros Hdoe. unfold civil_from_days.
  replace (doe - 719468 + 719468) with doe by lia.
  rewrite (Z.div_small doe 146097) by lia.
  replace (doe - 0 * 146097) with doe by lia. cbv zeta. cbn [fst].
  split; intros Hedge.
  - assert (Hg : doe - doe / 1460 + doe / 36524 - doe / 146096 = doe).
    { rewrite !Z.div_small by lia. lia. }
    rewrite Hg. rewrite (Z.div_small doe 365) by lia.
    change (0 / 4) with 0. change (0 / 100) with 0.
    replace (doe - (365 * 0 + 0 - 0)) with doe by lia.
    assert (Hmp : (5 * doe + 2) / 153 < 10)
      by (apply Z.div_lt_upper_bound; lia).
    destruct (Z.ltb_spec ((5 * doe + 2) / 153) 10); [ | lia ].
    assert (Hmp0 : 0 <= (5 * doe + 2) / 153) by (apply Z.div_pos; lia).
    destruct (Z.leb_spec ((5 * doe + 2) / 153 + 3) 2); lia.
  - assert (Hyoe : (doe - doe / 1460 + doe / 36524 - doe / 146096) / 365 = 399).
    { assert (H1 : doe / 1460 = 100).
      { symmetry. apply (Z.div_unique_pos _ _ _ (doe - 146000)); lia. }
      rewrite H1.
      destruct (Z.eq_dec doe 146096) as [-> | Hne]; [ reflexivity | ].
      assert (H2 : doe / 36524 = 3).
      { symmetry. apply (Z.div_unique_pos _ _ _ (doe - 109572)); lia. }
      rewrite H2, (Z.div_small doe 146096) by lia.
      symmetry. apply (Z.div_unique_pos _ _ _ (doe - 97 - 145635)); lia. }
    rewrite Hyoe. change (399 / 4) with 99. change (399 / 100) with 3.
    replace (doe - (365 * 399 + 99 - 3)) with (doe - 145731) by lia.
    assert (Hmp1 : 10 <= (5 * (doe - 145731) + 2) / 153)
      by (apply Z.div_le_lower_bound; lia).
    assert (Hmp2 : (5 * (doe - 145731) + 2) / 153 < 12)
      by (apply Z.div_lt_upper_bound; lia).
    destruct (Z.ltb_spec ((5 * (doe - 145731) + 2) / 153) 10); [ lia | ].
    destruct (Z.leb_spec ((5 * (doe - 145731) + 2) / 153 - 9) 2); lia.
Qed.

(** The year of a day far from the years 1 to 9999. *)
Lemma civil_year_far (z : Z) :
  let y := (civil_from_days z).1.1 in
  (2932897 <= z -> 10000 <= y)
  /\ (z <= -719163 -> y <= 0)
  /\ 400 * ((z + 719468) / 146097) <= y <= 400 * ((z + 719468) / 146097) + 400.
Proof.
  set (e := (z + 719468) / 146097).
  set (doe := (z + 719468) mod 146097).
  assert (Hz : z = doe - 719468 + e * 146097).
  { unfold doe, e. pose proof (Z.div_mod (z + 719468) 146097). lia. }
  assert (Hdoe : 0 <= doe < 146097) by (apply Z.mod_pos_bound; lia).
  clearbody e doe. subst z. rewrite civil_from_days_period.
  pose proof (civil_one_period doe Hdoe) as Hone.
  pose proof (civil_one_period_edges doe Hdoe) as [Hfirst Hlast].
  destruct (civil_from_days (doe - 719468)) as [[y m] d].
  cbn [fst] in *. destruct Hone as (_ & Hy & _ & _).
  split; [ | split ].
  - intros Hbig.
    destruct (Z.le_gt_cases 25 e); [ lia | ].
    assert (e = 24) by lia. subst e. rewrite Hlast by lia. lia.
  - intros Hsmall.
    destruct (Z.le_gt_cases e (-1)); [ lia | ].
    assert (e = 0) by lia. subst e. rewrite Hfirst by lia. lia.
  - lia.
Qed.

Lemma of_microseconds_year_eq (us : Z) (zone : tzinfo) :
  year (of_microseconds us zone) = (civil_from_days (us / 1000000 / 86400)).1.1.
Proof.
  unfold of_microseconds.
  destruct (civil_from_days (us / 1000000 / 86400)) as [[y m] d]. reflexivity.
Qed.

(** The year of an instant outside the years 1 to 9999 is outside them,
    and still fits a C [int]. *)
Lemma of_microseconds_year_far (us : Z) (zone : tzinfo) :
  - 10 ^ 22 <= us <= 10 ^ 22 ->
  let y := year (of_microseconds us zone) in
  (253402300800000000 <= us -> 10000 <= y)
  /\ (us < -62135596800000000 -> y <= 0)
  /\ - 2 ^ 30 <= y <= 2 ^ 30.
Proof.
  intros Hus. cbv zeta. rewrite of_microseconds_year_eq.
  change (10 ^ 22) with 10000000000000000000000 in Hus.
  set (z := us / 1000000 / 86400).
  assert (Hz : 86400000000 * z <= us < 86400000000 * (z + 1)).
  { unfold z. rewrite Z.div_div by lia. change (1000000 * 86400) with 86400000000.
    pose proof (Z.div_mod us 86400000000 ltac:(lia)).
    pose proof (Z.mod_pos_bound us 86400000000 ltac:(lia)). lia. }
  clearbody z.
  destruct (civil_year_far z) as (Hbig & Hsmall & Hera).
  set (e := (z + 719468) / 146097) in *.
  assert (He : 146097 * e <= z + 719468 < 146097 * (e + 1)).
  { unfold e. pose proof (Z.div_mod (z + 719468) 146097 ltac:(lia)).
    pose proof (Z.mod_pos_bound (z + 719468) 146097 ltac:(lia)). lia. }
  clearbody e. change (2 ^ 30) with 1073741824.
  split; [ | split ].
  - intros H. apply Hbig. lia.
  - intros H. apply Hsmall. lia.
  - lia.
Qed.

Lemma fromtimestamp_utc_out_of_range (x : float) (us : Z) :
  seconds_to_microseconds x = Some us ->
  - 10 ^ 22 <= us <= 10 ^ 22 ->
  253402300800000000 <= us \/ us < -62135596800000000 ->
  fromtimestamp_utc x
  = Raise (ValueError ("year " +:+ str_int (year (of_microseconds us pytz_UTC))
                       +:+ " is out of range"))
  /\ (253402300800000000 <= us -> 10000 <= year (of_microseconds us pytz_UTC))
  /\ (us < -62135596800000000 -> year (of_microseconds us pytz_UTC) <= 0).
Proof.
  intros Hus Hr Hout.
  destruct (of_microseconds_year_far us pytz_UTC Hr) as (Hbig & Hsmall & Hint).
  split; [ | split; assumption ].
  unfold fromtimestamp_utc. rewrite Hus.
  change (10 ^ 22) with 10000000000000000000000 in Hr.
  assert (Hsecs : - 2 ^ 63 <= us / 1000000 <= 2 ^ 63).
  { change (2 ^ 63) with 9223372036854775808. split.
    - apply Z.div_le_lower_bound; lia.
    - assert (us / 1000000 < 9223372036854775809); [ | lia ].
      apply Z.div_lt_upper_bound; lia. }
  destruct (Z.leb_spec (- 2 ^ 63) (us / 1000000)); [ | lia ].
  destruct (Z.leb_spec (us / 1000000) (2 ^ 63)); [ | lia ].
  cbn [andb negb].
  set (y := year (of_microseconds us pytz_UTC)) in *.
  change (2 ^ 30) with 1073741824 in Hint.
  destruct (Z.leb_spec (- 2 ^ 31) (y - 1900));
    [ | change (2 ^ 31) with 2147483648 in *; lia ].
  destruct (Z.ltb_spec (y - 1900) (2 ^ 31));
    [ | change (2 ^ 31) with 2147483648 in *; lia ].
  cbn [andb negb]. unfold MINYEAR, MAXYEAR.
  destruct (Z.leb_spec 1 y), (Z.leb_spec y 9999); cbn [andb negb];
    try reflexivity.
  destruct Hout as [Hup | Hdown];
    [ specialize (Hbig Hup) | specialize (Hsmall Hdown) ]; lia.
Qed.

Lemma astimezone_Asia_Tokyo_overflow (us : Z) :
  253402268400000000 <= us <= 253402300799999999 ->
  astimezone_Asia_Tokyo (of_microseconds us pytz_UTC)
  = Raise (OverflowError "date value out of range").
Proof.
  intros Hr. unfold astimezone_Asia_Tokyo. rewrite to_of_microseconds.
  destruct (Asia_Tokyo_utcoffset_bounds us) as [_ Hlate].
  rewrite Hlate by lia.
  destruct (of_microseconds_year_far (us + 32400 * 1000000) pytz_Asia_Tokyo)
    as (Hbig & _ & _).
  { change (10 ^ 22) with 10000000000000000000000. lia. }
  specialize (Hbig ltac:(lia)). unfold MINYEAR, MAXYEAR.
  set (y := year (of_microseconds (us + 32400 * 1000000) pytz_Asia_Tokyo)) in *.
  destruct (Z.leb_spec 1 y), (Z.leb_spec y 9999); cbn [andb]; try reflexivity.
  lia.
Qed.

Lemma result_bind_raise {A B : Type} (e : exn) (k : A -> result B) :
  ((Raise e : result A) ≫= k) = Raise e.
Proof. reflexivity. Qed.

(** X2: for a 64-bit integer whose second lies outside the range of
    [datetime], [unix_micro_to_jst] returns the text of the error and
    never a date.  In the last nine hours of the year 9999 the move to
    Asia/Tokyo overflows; beyond them [fromtimestamp] names the year,
    which is above 9999 after them and below 1 before the year 1. *)
Theorem unix_micro_to_jst_out_of_range (ms : Z) :
  - 2 ^ 63 <= ms < 2 ^ 63 ->
  (253402268400 <= ms / 1000 <= 253402300799 ->
     unix_micro_to_jst ms = "変換エラー: date value out of range")
  /\ (253402300800 <= ms / 1000 ->
      exists y : Z,
        10000 <= y
        /\ unix_micro_to_jst ms
           = "変換エラー: year " +:+ str_int y +:+ " is out of range")
  /\ (ms / 1000 < -62135596800 ->
      exists y : Z,
        y <= 0
        /\ unix_micro_to_jst ms
           = "変換エラー: year " +:+ str_int y +:+ " is out of range").
Proof.
  intros Hms.
  pose proof (Z.div_mod ms 1000 ltac:(lia)) as Hdm.
  pose proof (Z.mod_pos_bound ms 1000 ltac:(lia)) as Hmb.
  set (s := ms / 1000) in *.
  change (2 ^ 63) with 9223372036854775808 in Hms.
  assert (Hfar : forall x us,
    int_truediv ms 1000 = Return x ->
    seconds_to_microseconds x = Some us ->
    - 10 ^ 22 <= us <= 10 ^ 22 ->
    253402300800000000 <= us \/ us < -62135596800000000 ->
    exists y : Z,
      (253402300800000000 <= us -> 10000 <= y)
      /\ (us < -62135596800000000 -> y <= 0)
      /\ unix_micro_to_jst ms
         = "変換エラー: year " +:+ str_int y +:+ " is out of range").
  { intros x us Hdiv Hus Hr Hout.
    destruct (fromtimestamp_utc_out_of_range x us Hus Hr Hout)
      as (Hraise & Hbig & Hsmall).
    exists (year (of_microseconds us pytz_UTC)).
    split; [ exact Hbig | split; [ exact Hsmall | ] ].
    rewrite unix_micro_to_jst_unfold, Hdiv, result_bind_return.
    rewrite Hraise, result_bind_raise. reflexivity. }
  split; [ | split ].
  - (* the last hours of the year 9999 *)
    intros Hs.
    destruct (int_truediv_1000_second ms) as (x & us & Hdiv & Hus & Hsec).
    { change (2 ^ 38) with 274877906944. fold s. lia. }
    fold s in Hsec.
    pose proof (Z.div_mod us 1000000 ltac:(lia)) as Hdm'.
    pose proof (Z.mod_pos_bound us 1000000 ltac:(lia)) as Hmb'.
    rewrite unix_micro_to_jst_unfold, Hdiv, result_bind_return.
    rewrite (fromtimestamp_utc_in_range x us Hus), result_bind_return by lia.
    rewrite astimezone_Asia_Tokyo_overflow, result_bind_raise by lia.
    reflexivity.
  - (* after the year 9999 *)
    intros Hs.
    assert (Hnz : ms <> 0) by lia.
    assert (Hsmall : Z.abs ms <= 2 ^ 63)
      by (change (2 ^ 63) with 9223372036854775808; lia).
    assert (Hq : 63350575200 * 4 * 1000 <= Z.abs ms
                 <= 2305843009213694 * 4 * 1000) by lia.
    destruct (int_truediv_1000_wide ms _ _ Hnz Hsmall Hq)
      as (mz & ez & Hdiv & Hez & Hbr).
    destruct (seconds_to_microseconds_wide (ms <? 0) mz ez
                63350575200 2305843009213694 Hez ltac:(lia) Hbr)
      as (us & Hus & Hsec).
    destruct (Z.ltb_spec ms 0); [ lia | ]. cbn [cond_Zopp] in Hsec.
    destruct (Hfar _ us Hdiv Hsec) as (y & Hbig & _ & Hy).
    { change (10 ^ 22) with 10000000000000000000000. lia. }
    { left. lia. }
    exists y. split; [ apply Hbig; lia | exact Hy ].
  - (* before the year 1 *)
    intros Hs.
    destruct (Z.le_gt_cases s (- 2 ^ 38)) as [Hwide | Hnear].
    + change (2 ^ 38) with 274877906944 in Hwide.
      assert (Hnz : ms <> 0) by lia.
      assert (Hsmall : Z.abs ms <= 2 ^ 63)
        by (change (2 ^ 63) with 9223372036854775808; lia).
      assert (Hq : 68719476735 * 4 * 1000 <= Z.abs ms
                   <= 2305843009213694 * 4 * 1000) by lia.
      destruct (int_truediv_1000_wide ms _ _ Hnz Hsmall Hq)
        as (mz & ez & Hdiv & Hez & Hbr).
      destruct (seconds_to_microseconds_wide (ms <? 0) mz ez
                  68719476735 2305843009213694 Hez ltac:(lia) Hbr)
        as (us & Hus & Hsec).
      destruct (Z.ltb_spec ms 0); [ | lia ]. cbn [cond_Zopp] in Hsec.
      destruct (Hfar _ (- us) Hdiv Hsec) as (y & _ & Hlow & Hy).
      { change (10 ^ 22) with 10000000000000000000000. lia. }
      { right. lia. }
      exists y. split; [ apply Hlow; lia | exact Hy ].
    + change (2 ^ 38) with 274877906944 in Hnear.
      destruct (int_truediv_1000_second ms) as (x & us & Hdiv & Hus & Hsec).
      { change (2 ^ 38) with 274877906944. fold s. lia. }
      fold s in Hsec.
      pose proof (Z.div_mod us 1000000 ltac:(lia)) as Hdm'.
      pose proof (Z.mod_pos_bound us 1000000 ltac:(lia)) as Hmb'.
      destruct (Hfar x us Hdiv Hus) as (y & _ & Hlow & Hy).
      { change (10 ^ 22) with 10000000000000000000000. lia. }
      { right. lia. }
      exists y. split; [ apply Hlow; lia | exact Hy ].
Qed.

Variable int_of_str : string -> option Z.

(** X1: under ["JST"] every integer [ms] whose second [ms // 1000] lies
    in the range of [datetime] is printed as the clock of Asia/Tokyo at
    that second: the milliseconds are dropped towards minus infinity, and
    the division in floating point never moves the second.  From
    1951-09-08 15:00:00 UTC on, when the last summer time of Japan
    ended, that clock is UTC plus nine hours. *)
Theorem convert_timestamp_JST_floor_second (ms : Z) :
  -62135596800 <= ms / 1000 <= 253402268399 ->
  unix_micro_to_jst ms = Asia_Tokyo_clock (ms / 1000)
  /\ convert_timestamp int_of_str (PyInt ms) "JST"
     = Return (Asia_Tokyo_clock (ms / 1000))
  /\ (-577962000 <= ms / 1000 ->
      Asia_Tokyo_clock (ms / 1000)
      = strftime_Ymd_HMS
          (of_microseconds ((ms / 1000 + 32400) * 1000000) pytz_Asia_Tokyo)).
Proof.
  intros Hms. split; [ | split ].
  - apply unix_micro_to_jst_milliseconds, Hms.
  - unfold convert_timestamp. rewrite try_block_int.
    change (dispatch ms "JST") with (Return (Returned (unix_micro_to_jst ms))).
    rewrite unix_micro_to_jst_milliseconds by exact Hms. reflexivity.
  - intros Hlate. rewrite Asia_Tokyo_clock_unfold.
    destruct (Asia_Tokyo_utcoffset_bounds (ms / 1000 * 1000000)) as [_ Hoff].
    rewrite Hoff by lia. reflexivity.
Qed.

End UnixMicroToJst.

(** ** The formats counted from 2001 and from 1601 *)

Section EpochFormats.
Import Py PyFloat Datetime TimeUtils.

Lemma dispatch_MAC (value : Z) :
  dispatch value "MAC"
  = (int_truediv value 1000000 ≫= fun seconds =>
     Returned <$> epoch_plus_seconds (mk_datetime 2001 1 1 0 0 0 0 pytz_UTC) seconds).
Proof. reflexivity. Qed.

Lemma dispatch_COCOA (value : Z) :
  dispatch value "COCOA"
  = (int_truediv value 1000000 ≫= fun seconds =>
     Returned <$> epoch_plus_seconds (mk_datetime 2001 1 1 0 0 0 0 pytz_UTC) seconds).
Proof. reflexivity. Qed.

Lemma dispatch_WEBKIT (value : Z) :
  dispatch value "WEBKIT"
  = (int_truediv value 1000000 ≫= fun seconds =>
     Returned <$> epoch_plus_seconds (mk_datetime 1601 1 1 0 0 0 0 pytz_UTC) seconds).
Proof. reflexivity. Qed.

Lemma dispatch_FILETIME (value : Z) :
  dispatch value "FILETIME"
  = (int_truediv (value * 100) 1000000000 ≫= fun seconds =>
     Returned <$> epoch_plus_seconds (mk_datetime 1601 1 1 0 0 0 0 pytz_UTC) seconds).
Proof. reflexivity. Qed.

Lemma epoch_plus_seconds_unfold (epoch : datetime) (seconds : float) :
  epoch_plus_seconds epoch seconds
  = (timedelta_seconds seconds ≫= fun delta =>
     add epoch delta ≫= fun dt =>
     astimezone_Asia_Tokyo dt ≫= fun local =>
     mret (strftime_Ymd_HMS local)).
Proof. reflexivity. Qed.

Lemma timedelta_seconds_whole (x : float) (s : Z) :
  seconds_to_microseconds x = Some (s * 1000000) ->
  -86399999913600 <= s <= 86399999999999 ->
  timedelta_seconds x = Return (s * 1000000).
Proof.
  intros Hus Hs. unfold timedelta_seconds. rewrite Hus.
  assert (Hdays : -999999999 <= s * 1000000 / 86400000000 <= 999999999).
  { split.
    - apply Z.div_le_lower_bound; lia.
    - assert (s * 1000000 / 86400000000 < 1000000000); [ | lia ].
      apply Z.div_lt_upper_bound; lia. }
  set (days := s * 1000000 / 86400000000) in *.
  destruct (Z.leb_spec (- 2 ^ 31) days); [ | lia ].
  destruct (Z.ltb_spec days (2 ^ 31)); [ | lia ].
  cbn [andb negb].
  destruct (Z.ltb_spec 999999999 (Z.abs days)); [ lia | ].
  reflexivity.
Qed.

Lemma add_whole (epoch : datetime) (e0 s : Z) :
  tz epoch = pytz_UTC ->
  to_microseconds epoch = e0 * 1000000 ->
  -62135596800 <= e0 + s <= 253402300799 ->
  add epoch (s * 1000000)
  = Return (of_microseconds ((e0 + s) * 1000000) pytz_UTC).
Proof.
  intros Htz He0 Hs. unfold add. rewrite He0, Htz.
  replace (e0 * 1000000 + s * 1000000) with ((e0 + s) * 1000000) by lia.
  rewrite year_check_pass; [ reflexivity | ].
  apply of_microseconds_year. lia.
Qed.

(** The tail shared by the four epoch formats, for a whole number of
    seconds. *)
Lemma epoch_plus_seconds_whole (epoch : datetime) (e0 : Z) (x : float) (s : Z) :
  tz epoch = pytz_UTC ->
  to_microseconds epoch = e0 * 1000000 ->
  seconds_to_microseconds x = Some (s * 1000000) ->
  -86399999913600 <= s <= 86399999999999 ->
  -62135596800 <= e0 + s <= 253402268399 ->
  epoch_plus_seconds epoch x = Return (Asia_Tokyo_clock (e0 + s)).
Proof.
  intros Htz He0 Hus Hs Hr.
  rewrite epoch_plus_seconds_unfold, Asia_Tokyo_clock_unfold.
  rewrite (timedelta_seconds_whole x s Hus Hs), result_bind_return.
  rewrite (add_whole epoch e0 s Htz He0), result_bind_return by lia.
  rewrite astimezone_Asia_Tokyo_whole, result_bind_return by lia.
  reflexivity.
Qed.

Lemma convert_timestamp_int (int_of_str : string -> option Z) (n : Z)
  (format_type : string) :
  convert_timestamp int_of_str (PyInt n) format_type
  = match dispatch n format_type with
    | Return (Returned s) => Return s
    | Return (FellThrough n) => Return (str (PyInt n))
    | Raise e => Return (conversion_error e)
    end.
Proof. reflexivity. Qed.

Lemma result_fmap_return {A B : Type} (f : A -> B) (a : A) :
  f <$> (Return a : result A) = Return (f a).
Proof. reflexivity. Qed.

Lemma mac_epoch_microseconds :
  to_microseconds (mk_datetime 2001 1 1 0 0 0 0 pytz_UTC) = 978307200 * 1000000.
Proof. reflexivity. Qed.

Lemma webkit_epoch_microseconds :
  to_microseconds (mk_datetime 1601 1 1 0 0 0 0 pytz_UTC)
  = -11644473600 * 1000000.
Proof. reflexivity. Qed.

Variable int_of_str : string -> option Z.

(** X3: under ["MAC"] and under ["COCOA"] a value of [s] million, for
    a whole number [s] of seconds, is printed as the clock of Asia/Tokyo
    [s] seconds after 2001-01-01 00:00:00 UTC, which lies 978307200
    seconds after the UNIX epoch.  The two tags give the same text. *)
Theorem convert_timestamp_MAC_COCOA_whole_seconds (s : Z) :
  -62135596800 <= 978307200 + s <= 253402268399 ->
  convert_timestamp int_of_str (PyInt (1000000 * s)) "MAC"
    = Return (Asia_Tokyo_clock (978307200 + s))
  /\ convert_timestamp int_of_str (PyInt (1000000 * s)) "COCOA"
    = Return (Asia_Tokyo_clock (978307200 + s)).
Proof.
  intros Hs.
  destruct (int_truediv_multiple 1000000 s) as (x & Hdiv & Hus);
    [ lia | change (2 ^ 53) with 9007199254740992; lia | ].
  split; rewrite convert_timestamp_int.
  - rewrite dispatch_MAC, Hdiv, result_bind_return.
    rewrite (epoch_plus_seconds_whole _ 978307200 x s); try done; try lia.
  - rewrite dispatch_COCOA, Hdiv, result_bind_return.
    rewrite (epoch_plus_seconds_whole _ 978307200 x s); try done; try lia.
Qed.

(** X4: under ["WEBKIT"] a value of [s] million, and under ["FILETIME"]
    a value of [s] ten millions, for a whole number [s] of seconds, are
    printed as the clock of Asia/Tokyo [s] seconds after 1601-01-01
    00:00:00 UTC, which lies 11644473600 seconds before the UNIX
    epoch. *)
Theorem convert_timestamp_WEBKIT_FILETIME_whole_seconds (s : Z) :
  -62135596800 <= s - 11644473600 <= 253402268399 ->
  convert_timestamp int_of_str (PyInt (1000000 * s)) "WEBKIT"
    = Return (Asia_Tokyo_clock (s - 11644473600))
  /\ convert_timestamp int_of_str (PyInt (10000000 * s)) "FILETIME"
    = Return (Asia_Tokyo_clock (s - 11644473600)).
Proof.
  intros Hs. split; rewrite convert_timestamp_int.
  - destruct (int_truediv_multiple 1000000 s) as (x & Hdiv & Hus);
      [ lia | change (2 ^ 53) with 9007199254740992; lia | ].
    rewrite dispatch_WEBKIT, Hdiv, result_bind_return.
    rewrite (epoch_plus_seconds_whole _ (-11644473600) x s); try done; try lia.
    rewrite result_fmap_return. do 2 f_equal. lia.
  - destruct (int_truediv_multiple 1000000000 s) as (x & Hdiv & Hus);
      [ lia | change (2 ^ 53) with 9007199254740992; lia | ].
    rewrite dispatch_FILETIME.
    replace (10000000 * s * 100) with (1000000000 * s) by lia.
    rewrite Hdiv, result_bind_return.
    rewrite (epoch_plus_seconds_whole _ (-11644473600) x s); try done; try lia.
    rewrite result_fmap_return. do 2 f_equal. lia.
Qed.

End EpochFormats.

(** ** Values that are text *)

Section DecimalText.
Import Py PyFloat Datetime TimeUtils.

Lemma append_String (c : ascii) (s r : string) :
  String c s +:+ r = String c (s +:+ r).
Proof. reflexivity. Qed.

Lemma append_empty_l (r : string) : "" +:+ r = r.
Proof. reflexivity. Qed.

Lemma append_empty_r (s : string) : s +:+ "" = s.
Proof. induction s as [| c s IH]; [ reflexivity | ]. rewrite append_String, IH. reflexivity. Qed.

(** The digits of a decimal number are read back from the left. *)
Lemma int_digits_uint_pos (d : Decimal.uint) (acc : positive) (b : bool)
  (rest : string) :
  int_digits (Zpos acc) b (NilEmpty.string_of_uint d +:+ rest)
  = int_digits (Zpos (Pos.of_uint_acc d acc))
      (match d with Decimal.Nil => b | _ => true end) rest.
Proof.
  revert acc b. induction d as [| d IH | d IH | d IH | d IH | d IH | d IH
                                | d IH | d IH | d IH | d IH]; intros acc b;
    [ reflexivity | .. ];
    cbn [NilEmpty.string_of_uint]; rewrite append_String;
    cbn [int_digits Pos.of_uint_acc];
    match goal with
    | |- context [digit_value ?c] =>
        let v := eval vm_compute in (digit_value c) in
        change (digit_value c) with v
    end; cbv iota;
    match goal with
    | |- int_digits ?a true _ = int_digits (Zpos (Pos.of_uint_acc _ ?acc')) _ _ =>
        replace a with (Zpos acc') by lia
    end;
    rewrite IH; destruct d; reflexivity.
Qed.

Lemma int_digits_uint (d : Decimal.uint) (b : bool) (rest : string) :
  int_digits 0 b (NilEmpty.string_of_uint d +:+ rest)
  = int_digits (Z.of_N (Pos.of_uint d))
      (match d with Decimal.Nil => b | _ => true end) rest.
Proof.
  revert b. induction d as [| d IH | d IH | d IH | d IH | d IH | d IH
                            | d IH | d IH | d IH | d IH]; intros b;
    [ reflexivity | .. ];
    cbn [NilEmpty.string_of_uint]; rewrite append_String; cbn [int_digits];
    match goal with
    | |- context [digit_value ?c] =>
        let v := eval vm_compute in (digit_value c) in
        change (digit_value c) with v
    end; cbv iota.
  - (* a leading zero *)
    change (10 * 0 + 0) with 0. rewrite IH. cbn [Pos.of_uint].
    destruct d; reflexivity.
  - change (10 * 0 + 1) with (Zpos 1). rewrite int_digits_uint_pos.
    cbn [Pos.of_uint Z.of_N]. destruct d; reflexivity.
  - change (10 * 0 + 2) with (Zpos 2). rewrite int_digits_uint_pos.
    cbn [Pos.of_uint Z.of_N]. destruct d; reflexivity.
  - change (10 * 0 + 3) with (Zpos 3). rewrite int_digits_uint_pos.
    cbn [Pos.of_uint Z.of_N]. destruct d; reflexivity.
  - change (10 * 0 + 4) with (Zpos 4). rewrite int_digits_uint_pos.
    cbn [Pos.of_uint Z.of_N]. destruct d; reflexivity.
  - change (10 * 0 + 5) with (Zpos 5). rewrite int_digits_uint_pos.
    cbn [Pos.of_uint Z.of_N]. destruct d; reflexivity.
  - change (10 * 0 + 6) with (Zpos 6). rewrite int_digits_uint_pos.
    cbn [Pos.of_uint Z.of_N]. destruct d; reflexivity.
  - change (10 * 0 + 7) with (Zpos 7). rewrite int_digits_uint_pos.
    cbn [Pos.of_uint Z.of_N]. destruct d; reflexivity.
  - change (10 * 0 + 8) with (Zpos 8). rewrite int_digits_uint_pos.
    cbn [Pos.of_uint Z.of_N]. destruct d; reflexivity.
  - change (10 * 0 + 9) with (Zpos 9). rewrite int_digits_uint_pos.
    cbn [Pos.of_uint Z.of_N]. destruct d; reflexivity.
Qed.

(** Digits are no blanks, and none of them starts the marker. *)
Lemma rstrip_uint (d : Decimal.uint) :
  rstrip (NilEmpty.string_of_uint d) = NilEmpty.string_of_uint d.
Proof.
  induction d as [| d IH | d IH | d IH | d IH | d IH | d IH
                  | d IH | d IH | d IH | d IH]; [ reflexivity | .. ];
    cbn [NilEmpty.string_of_uint rstrip]; rewrite IH;
    destruct (NilEmpty.string_of_uint d); reflexivity.
Qed.

Lemma rstrip_app_uint (s : string) (d : Decimal.uint) :
  d <> Decimal.Nil ->
  rstrip (s +:+ NilEmpty.string_of_uint d) = s +:+ NilEmpty.string_of_uint d.
Proof.
  intros Hd. induction s as [| c s IH]; [ apply rstrip_uint | ].
  rewrite append_String. cbn [rstrip]. rewrite IH.
  destruct (s +:+ NilEmpty.string_of_uint d) eqn:Hs; [ | reflexivity ].
  destruct s; [ | discriminate ]. destruct d; done.
Qed.

Lemma str_remove_uint (d : Decimal.uint) (rest : string) :
  str_remove_go "➡" 0 (NilEmpty.string_of_uint d +:+ rest)
  = NilEmpty.string_of_uint d +:+ str_remove_go "➡" 0 rest.
Proof.
  induction d as [| d IH | d IH | d IH | d IH | d IH | d IH
                  | d IH | d IH | d IH | d IH]; [ reflexivity | .. ];
    cbn [NilEmpty.string_of_uint]; rewrite !append_String;
    rewrite <- IH; reflexivity.
Qed.

Lemma str_remove_marker (s : string) :
  str_remove "➡" ("➡" +:+ s) = str_remove "➡" s.
Proof. destruct s; reflexivity. Qed.

(** The text of an [int], as a string of digits behind an optional
    sign. *)
Lemma str_int_digits (n : Z) :
  exists d : Decimal.uint,
    d <> Decimal.Nil
    /\ Z.of_N (Pos.of_uint d) = Z.abs n
    /\ str_int n = (if n <? 0 then "-" else "") +:+ NilEmpty.string_of_uint d.
Proof.
  unfold str_int. destruct n as [| p | p].
  - exists (Decimal.D0 Decimal.Nil). repeat split. discriminate.
  - exists (Pos.to_uint p). split; [ apply DecimalPos.Unsigned.to_uint_nonnil | ].
    split; [ rewrite DecimalPos.Unsigned.of_to; reflexivity | ].
    cbn [Z.to_int NilZero.string_of_int]. unfold NilZero.string_of_uint.
    pose proof (DecimalPos.Unsigned.to_uint_nonnil p).
    destruct (Pos.to_uint p); done.
  - exists (Pos.to_uint p). split; [ apply DecimalPos.Unsigned.to_uint_nonnil | ].
    split; [ rewrite DecimalPos.Unsigned.of_to; reflexivity | ].
    cbn [Z.to_int NilZero.string_of_int]. unfold NilZero.string_of_uint.
    pose proof (DecimalPos.Unsigned.to_uint_nonnil p).
    destruct (Pos.to_uint p); done.
Qed.

Lemma lstrip_uint (d : Decimal.uint) (rest : string) :
  lstrip (NilEmpty.string_of_uint d +:+ rest)
  = match d with
    | Decimal.Nil => lstrip rest
    | _ => NilEmpty.string_of_uint d +:+ rest
    end.
Proof. destruct d; reflexivity. Qed.

(** [int(str(n))] is [n]. *)
Lemma int_of_ascii_str_str_int (n : Z) : int_of_ascii_str (str_int n) = Some n.
Proof.
  destruct (str_int_digits n) as (d & Hd & Hval & ->).
  unfold int_of_ascii_str.
  rewrite rstrip_app_uint by exact Hd.
  destruct (Z.ltb_spec n 0) as [Hneg | Hpos].
  - rewrite append_String, append_empty_l. cbn [lstrip].
    change (is_blank "-") with false. cbv iota.
    rewrite <- (append_empty_r (NilEmpty.string_of_uint d)).
    rewrite int_digits_uint, Hval.
    destruct d; [ done | .. ]; cbn; f_equal; lia.
  - rewrite append_empty_l.
    rewrite <- (append_empty_r (NilEmpty.string_of_uint d)).
    rewrite lstrip_uint.
    assert (Hgo : int_digits 0 false (NilEmpty.string_of_uint d +:+ "") = Some n).
    { rewrite int_digits_uint, Hval. destruct d; [ done | .. ]; cbn; f_equal; lia. }
    destruct d; [ done | .. ]; exact Hgo.
Qed.

Lemma str_remove_str_int (n : Z) : str_remove "➡" (str_int n) = str_int n.
Proof.
  destruct (str_int_digits n) as (d & Hd & Hval & ->). unfold str_remove.
  destruct (n <? 0); rewrite ?append_String, append_empty_l.
  - change (str_remove_go "➡" 0 (String "-" (NilEmpty.string_of_uint d)))
      with (String "-" (str_remove_go "➡" 0 (NilEmpty.string_of_uint d))).
    rewrite <- (append_empty_r (NilEmpty.string_of_uint d)) at 1.
    rewrite str_remove_uint. cbn. rewrite append_empty_r. reflexivity.
  - rewrite <- (append_empty_r (NilEmpty.string_of_uint d)) at 1.
    rewrite str_remove_uint. cbn. rewrite append_empty_r. reflexivity.
Qed.

End DecimalText.

Section TextValues.
Import Py PyFloat Datetime TimeUtils.

Lemma str_remove_go_str_int (n : Z) (rest : string) :
  str_remove_go "➡" 0 (str_int n +:+ rest)
  = str_int n +:+ str_remove_go "➡" 0 rest.
Proof.
  destruct (str_int_digits n) as (d & Hd & Hval & ->).
  destruct (n <? 0); rewrite ?append_String, !append_empty_l.
  - rewrite <- str_remove_uint. reflexivity.
  - apply str_remove_uint.
Qed.

Lemma str_remove_go_two_digits (n : Z) (rest : string) :
  str_remove_go "➡" 0 (two_digits n +:+ rest)
  = two_digits n +:+ str_remove_go "➡" 0 rest.
Proof.
  unfold two_digits. destruct (n <? 10); [ | apply str_remove_go_str_int ].
  rewrite !append_String, !append_empty_l.
  rewrite <- str_remove_go_str_int. reflexivity.
Qed.

Lemma str_remove_go_keep (c : ascii) (s : string) :
  c <> "226"%char ->
  str_remove_go "➡" 0 (String c s) = String c (str_remove_go "➡" 0 s).
Proof.
  intros Hc. cbn [str_remove_go].
  assert (Hp : String.prefix "➡" (String c s) = false).
  { change (String.prefix "➡" (String c s))
      with (match ascii_dec "226" c with
            | left _ => String.prefix (String "158" (String "161" "")) s
            | right _ => false
            end).
    destruct (ascii_dec "226" c) as [Heq | _]; [ congruence | reflexivity ]. }
  rewrite Hp. reflexivity.
Qed.

Lemma str_remove_strftime (dt : datetime) :
  str_remove "➡" (strftime_Ymd_HMS dt) = strftime_Ymd_HMS dt.
Proof.
  unfold str_remove, strftime_Ymd_HMS.
  rewrite <- (append_empty_r (two_digits (second dt))) at 1.
  rewrite !append_String, !append_empty_l.
  rewrite str_remove_go_str_int, str_remove_go_keep by discriminate.
  rewrite str_remove_go_two_digits, str_remove_go_keep by discriminate.
  rewrite str_remove_go_two_digits, str_remove_go_keep by discriminate.
  rewrite str_remove_go_two_digits, str_remove_go_keep by discriminate.
  rewrite str_remove_go_two_digits, str_remove_go_keep by discriminate.
  rewrite str_remove_go_two_digits. cbn [str_remove_go].
  rewrite append_empty_r. reflexivity.
Qed.

(** A text that ends in a digit keeps its end, one that starts with a
    sign or a digit its start. *)
Lemma rstrip_app_stable (s1 s2 : string) :
  s2 <> "" -> rstrip s2 = s2 -> rstrip (s1 +:+ s2) = s1 +:+ s2.
Proof.
  intros Hne Hs2. induction s1 as [| c s1 IH]; [ exact Hs2 | ].
  rewrite append_String. cbn [rstrip]. rewrite IH.
  destruct (s1 +:+ s2) eqn:Hs; [ | reflexivity ].
  destruct s1; [ | discriminate ]. rewrite append_empty_l in Hs. done.
Qed.

Lemma rstrip_str_int (n : Z) : str_int n <> "" /\ rstrip (str_int n) = str_int n.
Proof.
  destruct (str_int_digits n) as (d & Hd & Hval & ->). split.
  - destruct (n <? 0); [ discriminate | ]. rewrite append_empty_l.
    destruct d; done.
  - apply rstrip_app_uint, Hd.
Qed.

Lemma rstrip_two_digits (n : Z) :
  two_digits n <> "" /\ rstrip (two_digits n) = two_digits n.
Proof.
  unfold two_digits. destruct (n <? 10); [ | apply rstrip_str_int ].
  destruct (rstrip_str_int n) as [Hne Hr]. split; [ discriminate | ].
  apply rstrip_app_stable; done.
Qed.

Lemma rstrip_app_nonempty (s1 s2 : string) :
  s2 <> "" /\ rstrip s2 = s2 ->
  s1 +:+ s2 <> "" /\ rstrip (s1 +:+ s2) = s1 +:+ s2.
Proof.
  intros [Hne Hr]. split; [ | apply rstrip_app_stable; done ].
  destruct s1; [ rewrite append_empty_l; done | discriminate ].
Qed.

Lemma rstrip_strftime (dt : datetime) :
  rstrip (strftime_Ymd_HMS dt) = strftime_Ymd_HMS dt.
Proof.
  unfold strftime_Ymd_HMS.
  apply rstrip_app_nonempty.
  do 9 apply rstrip_app_nonempty.
  apply rstrip_two_digits.
Qed.

Lemma int_digits_stop (acc : Z) (rest : string) :
  int_digits acc true (String "-" rest) = None.
Proof. reflexivity. Qed.

(** A printed date is not the text of an integer. *)
Lemma int_of_ascii_str_strftime (dt : datetime) :
  int_of_ascii_str (strftime_Ymd_HMS dt) = None.
Proof.
  unfold int_of_ascii_str. rewrite rstrip_strftime.
  unfold strftime_Ymd_HMS.
  destruct (str_int_digits (year dt)) as (d & Hd & Hval & ->).
  rewrite (append_String "-" ""), append_empty_l.
  set (rest := two_digits (month dt) +:+ _).
  destruct (year dt <? 0).
  - rewrite !append_String, !append_empty_l. cbn [lstrip].
    change (is_blank "-") with false. cbv iota.
    rewrite int_digits_uint.
    destruct d; [ done | .. ]; rewrite int_digits_stop; reflexivity.
  - rewrite append_empty_l.
    assert (Hgo : int_digits 0 false
                    (NilEmpty.string_of_uint d +:+ String "-" rest) = None).
    { rewrite int_digits_uint.
      destruct d; [ done | .. ]; apply int_digits_stop. }
    destruct d; [ done | .. ]; exact Hgo.
Qed.

Variable int_of_str : string -> option Z.


End TextValues.

Section TextValuesClosed.
Import Py PyFloat Datetime TimeUtils.


(** X7: a date printed with ['%Y-%m-%d %H:%M:%S'] and passed in again
    comes back unchanged under every format tag: [int] does not read
    it, so converting a cell that is converted already does no harm. *)
Theorem convert_timestamp_of_printed_date (dt : datetime) (format_type : string) :
  convert_timestamp int_of_ascii_str (PyStr (strftime_Ymd_HMS dt)) format_type
  = Return (strftime_Ymd_HMS dt).
Proof.
  unfold convert_timestamp, try_block, int_builtin. cbn [str].
  rewrite str_remove_strftime, int_of_ascii_str_strftime. reflexivity.
Qed.

End TextValuesClosed.

Section TimeUtilsWitnesses.
Import Py PyFloat Datetime TimeUtils.

(** X1, witness: 999 milliseconds after the first second of 2024. *)
Lemma convert_timestamp_JST_floor_second_witness :
  -62135596800 <= 1704034800999 / 1000 <= 253402268399
  /\ unix_micro_to_jst 1704034800999 = "2024-01-01 00:00:00".
Proof.
  assert (H : -62135596800 <= 1704034800999 / 1000 <= 253402268399)
    by (vm_compute; split; discriminate).
  split; [ exact H | ].
  rewrite (proj1 (convert_timestamp_JST_floor_second int_of_ascii_str
                    1704034800999 H)).
  vm_compute. reflexivity.
Defined.

(** X2, witness: the largest 64-bit integer. *)
Lemma unix_micro_to_jst_out_of_range_witness :
  - 2 ^ 63 <= 2 ^ 63 - 1 < 2 ^ 63
  /\ exists y : Z,
       10000 <= y
       /\ unix_micro_to_jst (2 ^ 63 - 1)
          = "変換エラー: year " +:+ str_int y +:+ " is out of range".
Proof.
  assert (H : - 2 ^ 63 <= 2 ^ 63 - 1 < 2 ^ 63) by (vm_compute; split; [ discriminate | reflexivity ]).
  split; [ exact H | ].
  apply (proj1 (proj2 (unix_micro_to_jst_out_of_range (2 ^ 63 - 1) H))).
  vm_compute. discriminate.
Defined.

(** X3, witness: the epoch of the two formats itself. *)
Lemma convert_timestamp_MAC_COCOA_whole_seconds_witness :
  -62135596800 <= 978307200 + 0 <= 253402268399
  /\ convert_timestamp int_of_ascii_str (PyInt (1000000 * 0)) "MAC"
     = Return "2001-01-01 09:00:00".
Proof.
  assert (H : -62135596800 <= 978307200 + 0 <= 253402268399) by lia.
  split; [ exact H | ].
  rewrite (proj1 (convert_timestamp_MAC_COCOA_whole_seconds int_of_ascii_str
                    0 H)).
  vm_compute. reflexivity.
Defined.

(** X4, witness: the UNIX epoch counted from 1601. *)
Lemma convert_timestamp_WEBKIT_FILETIME_whole_seconds_witness :
  -62135596800 <= 11644473600 - 11644473600 <= 253402268399
  /\ convert_timestamp int_of_ascii_str (PyInt (10000000 * 11644473600))
       "FILETIME"
     = Return "1970-01-01 09:00:00".
Proof.
  assert (H : -62135596800 <= 11644473600 - 11644473600 <= 253402268399)
    by lia.
  split; [ exact H | ].
  rewrite (proj2 (convert_timestamp_WEBKIT_FILETIME_whole_seconds
                    int_of_ascii_str 11644473600 H)).
  vm_compute. reflexivity.
Defined.


End TimeUtilsWitnesses.

(** * Properties of the other functions of [database_utils.py] *)

Section TableNames.
Import Py Sqlite3 Sqlite3Queries DatabaseUtils DatabaseQueries Reading Samples.

Lemma ascii_compare_trans (a b c : ascii) (o : comparison) :
  Ascii.compare a b = o -> Ascii.compare b c = o -> Ascii.compare a c = o.
Proof.
  unfold Ascii.compare. intros Hab Hbc. destruct o.
  - apply N.compare_eq_iff in Hab. apply N.compare_eq_iff in Hbc.
    apply N.compare_eq_iff. congruence.
  - apply N.compare_lt_iff in Hab. apply N.compare_lt_iff in Hbc.
    apply N.compare_lt_iff. eapply N.lt_trans; eassumption.
  - apply N.compare_gt_iff in Hab. apply N.compare_gt_iff in Hbc.
    apply N.compare_gt_iff. eapply N.lt_trans; eassumption.
Qed.

Lemma string_compare_lt_trans (a b c : string) :
  String.compare a b = Lt -> String.compare b c = Lt -> String.compare a c = Lt.
Proof.
  revert b c. induction a as [| x a IH]; intros [| y b] [| z c]; cbn;
    try done.
  destruct (Ascii.compare x y) eqn:Hxy; try done;
    destruct (Ascii.compare y z) eqn:Hyz; try done; intros Hab Hbc.
  - apply Ascii.compare_eq_iff in Hxy, Hyz. subst.
    assert (Hzz : Ascii.compare z z = Eq)
      by (unfold Ascii.compare; apply N.compare_refl).
    rewrite Hzz. eapply IH; eassumption.
  - apply Ascii.compare_eq_iff in Hxy. subst. rewrite Hyz. done.
  - apply Ascii.compare_eq_iff in Hyz. subst. rewrite Hxy. done.
  - rewrite (ascii_compare_trans x y z Lt Hxy Hyz). done.
Qed.

Lemma string_compare_refl (a : string) : String.compare a a = Eq.
Proof.
  induction a as [| x a IH]; [ done | ]. cbn.
  assert (Hxx : Ascii.compare x x = Eq)
    by (unfold Ascii.compare; apply N.compare_refl).
  rewrite Hxx. exact IH.
Qed.

#[local] Instance name_le_trans : Transitive name_le.
Proof.
  intros a b c. unfold name_le, String.leb.
  destruct (String.compare a b) eqn:Hab; try done;
    destruct (String.compare b c) eqn:Hbc; try done; intros _ _.
  - apply String.compare_eq_iff in Hab, Hbc. subst.
    rewrite string_compare_refl. done.
  - apply String.compare_eq_iff in Hab. subst. rewrite Hbc. done.
  - apply String.compare_eq_iff in Hbc. subst. rewrite Hab. done.
  - rewrite (string_compare_lt_trans a b c Hab Hbc). done.
Qed.

#[local] Instance name_le_total : Total name_le.
Proof. intros a b. apply String.leb_total. Qed.

#[local] Instance name_le_antisym : AntiSymm eq name_le.
Proof. intros a b. apply String.leb_antisym. Qed.

(** The names of [sqlite_master]: every table once, in ascending
    order. *)
Lemma table_names_spec (db : gmap string table) :
  (forall t, t ∈ table_names db <-> is_Some (db !! t))
  /\ NoDup (table_names db)
  /\ StronglySorted name_le (table_names db).
Proof.
  unfold table_names. split; [ | split ].
  - intros t. rewrite merge_sort_Permutation.
    rewrite list_elem_of_fmap. split.
    + intros ([k v] & -> & Hin). apply elem_of_map_to_list in Hin. by exists v.
    + intros [v Hv]. exists (t, v). split; [ done | ].
      by apply elem_of_map_to_list.
  - rewrite merge_sort_Permutation. apply NoDup_fst_map_to_list.
  - apply StronglySorted_merge_sort; apply _.
Qed.

End TableNames.

Section DatabaseQueriesProperties.
Import Py Sqlite3 Sqlite3Queries DatabaseUtils DatabaseQueries Reading Samples.

#[local] Arguments run : simpl never.
#[local] Arguments get_wal_data : simpl never.

Lemma first_cells (names : list string) :
  comprehension always (fun table => tuple_get table 0)
    ((fun name => [PyStr name]) <$> names)
  = Return (PyStr <$> names).
Proof.
  rewrite (comprehension_always _ (fun r => default PyNone (r !! 0%nat))).
  - f_equal. rewrite <- list_fmap_compose. done.
  - intros r Hr. apply list_elem_of_fmap in Hr as (n & -> & _). done.
Qed.

(** X8: on a database [get_all_tables] returns the names of its
    tables, each once, in ascending byte order, and prints nothing. *)
Theorem get_all_tables_sorted_names (db : gmap string table) (st : state) :
  connected db st ->
  exists names : list string,
    get_all_tables st = (Return (PyStr <$> names), after st [])
    /\ (forall t, t ∈ names <-> is_Some (db !! t))
    /\ NoDup names
    /\ StronglySorted name_le names.
Proof.
  destruct st as [[conn pend] out]. unfold connected. cbn. intros ->.
  exists (table_names db). split; [ | apply table_names_spec ].
  unfold get_all_tables, cursor_execute_query, execute_query. io_step.
  rewrite first_cells. unfold after. cbn. by rewrite app_nil_r.
Qed.


(** [get_table_info]: one row for each column, none for a table that
    does not exist. *)
Lemma get_table_info_spec (db : gmap string table) (t : string) (st : state) :
  connected db st ->
  get_table_info t st
  = (Return (match db !! t with
             | Some tbl => table_info_row <$> columns tbl
             | None => []
             end), after st []).
Proof.
  destruct st as [[conn pend] out]. unfold connected. cbn. intros ->.
  unfold get_table_info. io_step. rewrite run_pragma. unfold after. cbn.
  by rewrite app_nil_r.
Qed.

(** [get_table_row_count] *)
Lemma get_table_row_count_spec (t : string) (st : state) :
  get_table_row_count t st
  = (Return (PyInt match connection (the_cursor st) with
                   | SqliteFile db =>
                       match db !! t with
                       | Some tbl => Z.of_nat (length (rows tbl))
                       | None => 0
                       end
                   | OtherFile => 0
                   end), after st []).
Proof.
  destruct st as [[conn pend] out]. unfold after. cbn.
  unfold get_table_row_count, try_except_sqlite3_Error, cursor_execute_query,
    cursor_fetchone, execute_query, fetchone. io_step.
  destruct conn as [db |]; cbn; [ | by rewrite app_nil_r ].
  destruct (db !! t) as [tbl |]; cbn; by rewrite app_nil_r.
Qed.

Section EngineLemmas.

Variable between_rows : table -> Z -> Z -> result (list row).
Variable deleted_rows : table -> result (list row).

Lemma get_table_contents_unbounded (db : gmap string table) (t : string)
  (start_pk end_pk limit : option Z) (st : state) :
  connected db st ->
  start_pk = None \/ end_pk = None ->
  get_table_contents between_rows deleted_rows t start_pk end_pk limit st
  = match db !! t with
    | Some tbl =>
        (Return (column_names tbl, limit_rows limit (rows tbl)), after st [])
    | None =>
        (Return ([], []),
         after st ["テーブル内容の取得エラー: no such table: " +:+ t])
    end.
Proof.
  destruct st as [[conn pend] out]. unfold connected, after. cbn.
  intros -> Hnone.
  assert (Hq : match start_pk, end_pk with
               | Some a, Some b =>
                   cursor_execute_filtered between_rows deleted_rows
                     (SELECT_all_FROM_WHERE_Z_PK_BETWEEN t a b limit)
               | _, _ => cursor_execute (SELECT_all_FROM t limit)
               end = cursor_execute (SELECT_all_FROM t limit)).
  { destruct Hnone as [-> | ->]; [ done | by destruct start_pk ]. }
  unfold get_table_contents. rewrite Hq. clear Hq.
  unfold try_except_sqlite3_Error, print. io_step.
  rewrite run_pragma.
  destruct (db !! t) as [tbl |] eqn:Ht; cbn.
  - rewrite table_info_names. cbn.
    unfold run. rewrite Ht. unfold limit_rows.
    destruct limit as [n |]; [ destruct (n <? 0) | ]; cbn; by rewrite app_nil_r.
  - rewrite run_select_absent by done. reflexivity.
Qed.

End EngineLemmas.

End DatabaseQueriesProperties.

Section DatabaseQueriesTheorems.
Import Py Sqlite3 Sqlite3Queries DatabaseUtils DatabaseQueries Reading Samples.
Import GuiMain.

#[local] Arguments run : simpl never.
#[local] Arguments get_wal_data : simpl never.

Variable between_rows : table -> Z -> Z -> result (list row).
Variable deleted_rows : table -> result (list row).







End DatabaseQueriesTheorems.

Section WalProperties.
Import Py Sqlite3 Sqlite3Queries DatabaseUtils DatabaseQueries Reading Samples.
Import GuiMain.

#[local] Arguments run : simpl never.
#[local] Arguments get_wal_data : simpl never.


Lemma set_range_empty (a : Z) : set_range a (a + 0) = ∅.
Proof.
  unfold set_range. replace (a + 0 - a) with 0 by lia. reflexivity.
Qed.

(** The result on a readable table when the WAL source gives no row. *)
Lemma get_table_contents_with_wal_no_wal_rows (fs : gmap string file)
  (t db_path : string) (limit : option Z) (db : gmap string table)
  (tbl : table) (st : state) :
  connected db st ->
  db !! t = Some tbl ->
  Forall (aligned tbl) (main_rows limit tbl) ->
  wal_rows fs db_path t = [] ->
  get_table_contents_with_wal fs t db_path limit st
  = (Return (column_names tbl, main_rows limit tbl, ∅),
     after st (wal_messages fs db_path t)).
Proof.
  intros Hst Ht Hmain Hwal.
  destruct (pk_column_names tbl) as [| p ps] eqn:Hpk.
  - rewrite (get_table_contents_with_wal_no_pk fs t db_path limit db tbl st)
      by done.
    rewrite Hwal, app_nil_r. cbn [length]. change (Z.of_nat 0) with 0.
    rewrite set_range_empty. reflexivity.
  - rewrite (get_table_contents_with_wal_pk fs t db_path limit db tbl st);
      rewrite ?Hpk, ?Hwal; try done.
    unfold wal_only. cbn. rewrite app_nil_r. reflexivity.
Qed.


Section EngineProperties.

Variable between_rows : table -> Z -> Z -> result (list row).
Variable deleted_rows : table -> result (list row).


End EngineProperties.

Lemma run_negative_limit (f : file) (t : string) (n : Z) :
  n < 0 ->
  run f (SELECT_all_FROM t (Some n)) = run f (SELECT_all_FROM t None).
Proof.
  intros Hn. unfold run. destruct f as [catalog |]; [ | done ].
  destruct (catalog !! t); [ | done ].
  destruct (Z.ltb_spec n 0); [ done | lia ].
Qed.

Lemma io_bind_ext {A B : Type} (m : io A) (k1 k2 : A -> io B) (st : state) :
  (forall a st', k1 a st' = k2 a st') -> (m ≫= k1) st = (m ≫= k2) st.
Proof.
  intros Hk. unfold mbind, io_bind. destruct (m st) as [[a | e] st']; [ | done ].
  apply Hk.
Qed.



End WalProperties.

Section DatabaseQueriesWitnesses.
Import Py Sqlite3 Sqlite3Queries DatabaseUtils DatabaseQueries Reading Samples.
Import GuiMain QuerySamples.

(** X8, witness: the database with the single table ["msg"]. *)
Lemma get_all_tables_sorted_names_witness :
  connected (database_of main_A) (fresh_state (database_of main_A))
  /\ exists names : list string,
       (get_all_tables (fresh_state (database_of main_A))).1
       = Return (PyStr <$> names)
       /\ forall t, t ∈ names <-> is_Some (database_of main_A !! t).
Proof.
  assert (H : connected (database_of main_A) (fresh_state (database_of main_A)))
    by reflexivity.
  split; [ exact H | ].
  destruct (get_all_tables_sorted_names (database_of main_A)
              (fresh_state (database_of main_A)) H)
    as (names & Heq & Hin & _).
  exists names. rewrite Heq. split; [ reflexivity | exact Hin ].
Defined.










End DatabaseQueriesWitnesses.
